(** * session/txn.go: the lazy, statement-buffered transaction of a session

    A shallow embedding of [TxnState], [txnFuture] and the statement
    commit/rollback protocol of package [session], together with the
    properties the specification states about them.

    Conventions of the embedding.
    - Go byte slices ([kv.Key], [[]byte]) are [string]s; [len(v) == 0] is
      [len v =? 0], and a [nil] slice is the empty string.
    - A Go [error] is [option error]; [None] is [nil].  [errors.Trace] only
      annotates an error with a stack, so it is the identity on the value.
    - A method with a pointer receiver is a computation in the monad [M]:
      it reads and writes the receiver, may panic (a method call through a
      nil interface), and appends to the history of calls it makes on its
      collaborators (the underlying transaction, the store, the oracle, the
      logger, the dirty table), the way a recording mock would. *)

From Stdlib Require Import ZArith String List Sorted Lia.
From stdpp Require Import base option list gmap strings.

(** ** Bytes and errors *)

Definition Key : Type := string.
Definition bytes : Type := string.

Definition nil_bytes : bytes := EmptyString.

Definition len (v : bytes) : Z := Z.of_nat (String.length v).

Inductive error : Type :=
| ErrNotExist                  (* kv.ErrNotExist *)
| errors_New (msg : string).   (* errors.New(msg), and any collaborator's error *)

(* kv.IsErrNotFound *)
Definition IsErrNotFound (err : option error) : bool :=
  match err with
  | Some ErrNotExist => true
  | _ => false
  end.

(* errors.Trace *)
Definition errors_Trace (err : option error) : option error := err.

(** ** binlog.TableMutation and its merge *)

Record TableMutation : Type := mkTableMutation {
  TableId : Z;
  InsertedRows : list bytes;
  UpdatedRows : list bytes;
  DeletedIds : list Z;
  DeletedPks : list bytes;
  DeletedRows : list bytes;
  Sequence : list Z
}.

(* binlog.TableMutation{TableId: tableID} *)
Definition TableMutation_of (tableID : Z) : TableMutation :=
  mkTableMutation tableID [] [] [] [] [] [].

(* mergeToMutation(m1, m2): m1 is updated in place, the result is its new
   value; m2 is only read. *)
Definition mergeToMutation (m1 m2 : TableMutation) : TableMutation :=
  {| TableId := TableId m1;
     InsertedRows := InsertedRows m1 ++ InsertedRows m2;
     UpdatedRows := UpdatedRows m1 ++ UpdatedRows m2;
     DeletedIds := DeletedIds m1 ++ DeletedIds m2;
     DeletedPks := DeletedPks m1 ++ DeletedPks m2;
     DeletedRows := DeletedRows m1 ++ DeletedRows m2;
     Sequence := Sequence m1 ++ Sequence m2 |}.

(** ** The write overlay *)

(** [kv.MemBuffer] is declared in package [kv], outside session/txn.go.
    The specification describes it as an ordered key-value overlay with
    get, set, delete and a walk in key order, where a delete leaves a
    tombstone (the key bound to an empty value), and reset empties it. *)
Module MemBuffer.

(** Modelled from the spec: the overlay [kv.MemBuffer], an association list
    that [put] keeps in strictly increasing key order. *)
Definition t : Type := list (Key * bytes).

Fixpoint lookup (b : t) (k : Key) : option bytes :=
  match b with
  | [] => None
  | (k', v) :: b' => if String.eqb k k' then Some v else lookup b' k
  end.

Fixpoint put (k : Key) (v : bytes) (b : t) : t :=
  match b with
  | [] => [(k, v)]
  | (k', v') :: b' =>
      match String.compare k k' with
      | Lt => (k, v) :: b
      | Eq => (k, v) :: b'
      | Gt => (k', v') :: put k v b'
      end
  end.

(** Modelled from the spec: [kv.NewMemDbBuffer(cap)], an empty overlay;
    [cap] is a capacity hint. *)
Definition NewMemDbBuffer (cap : Z) : t := [].

(** Modelled from the spec: [MemBuffer.Get], the value bound to [k], or
    kv.ErrNotExist when the overlay does not hold [k]. *)
Definition Get (b : t) (k : Key) : bytes * option error :=
  match lookup b k with
  | Some v => (v, None)
  | None => (nil_bytes, Some ErrNotExist)
  end.

(** Modelled from the spec: [MemBuffer.Set], which binds [k] to [v]. *)
Definition Set_ (b : t) (k : Key) (v : bytes) : t * option error :=
  (put k v b, None).

(** Modelled from the spec: [MemBuffer.Delete], which leaves a tombstone:
    [k] bound to the empty value. *)
Definition Delete (b : t) (k : Key) : t * option error :=
  (put k nil_bytes b, None).

(** Modelled from the spec: [MemBuffer.Len], the number of entries,
    tombstones included. *)
Definition Len (b : t) : Z := Z.of_nat (length b).

(** Modelled from the spec: [MemBuffer.Reset], which empties the overlay. *)
Definition Reset (b : t) : t := [].

(** Modelled from the spec: the entries in the order kv.WalkMemBuffer
    visits them, which is key order. *)
Definition entries (b : t) : list (Key * bytes) := b.

End MemBuffer.

(* Strictly increasing keys. *)
Definition key_lt (e1 e2 : Key * bytes) : Prop :=
  String.compare (fst e1) (fst e2) = Lt.

(** Modelled from the spec: [kv.DefaultTxnMembufCap], a constant of package
    [kv]; it is only the capacity hint of a new overlay, and nothing here
    depends on its value. *)
Definition DefaultTxnMembufCap : Z := 4 * 1024.

(** ** Computations on a receiver *)

Inductive outcome (A : Type) : Type :=
| Return (a : A)
| Panic.   (* run-time panic; here always a method call through a nil interface *)

Arguments Return {A} a.
Arguments Panic {A}.

(* [M E S A]: a computation on a receiver of type [S], with results in [A],
   that records the calls it makes on its collaborators as events in [E]. *)
Definition M (E S A : Type) : Type := S -> list E -> outcome A * S * list E.

Definition ret {E S A} (a : A) : M E S A := fun s h => (Return a, s, h).

Definition bind {E S A B} (m : M E S A) (k : A -> M E S B) : M E S B :=
  fun s h =>
    match m s h with
    | (Return a, s', h') => k a s' h'
    | (Panic, s', h') => (Panic, s', h')
    end.

Definition panic {E S A} : M E S A := fun s h => (Panic, s, h).

Definition get {E S} : M E S S := fun s h => (Return s, s, h).

Definition modify {E S} (f : S -> S) : M E S unit := fun s h => (Return tt, f s, h).

Definition call {E S} (ev : E) : M E S unit := fun s h => (Return tt, s, h ++ [ev]).

(* [defer d; body]: [d] runs when [body] has returned or panicked, after the
   values [body] returns have been computed; a panic of [body] goes on once
   [d] is done. *)
Definition defer {E S A} (d : M E S unit) (body : M E S A) : M E S A :=
  fun s h =>
    match body s h with
    | (o, s1, h1) =>
        match d s1 h1 with
        | (Return _, s2, h2) => (o, s2, h2)
        | (Panic, s2, h2) => (Panic, s2, h2)
        end
    end.

Declare Scope go_scope.
Delimit Scope go_scope with go.
Notation "x <- m ;; k" := (bind m (fun x => k))
  (at level 100, m at next level, right associativity) : go_scope.
Notation "m ;;; k" := (bind m (fun _ => k))
  (at level 100, right associativity) : go_scope.

(* for _, x := range l { f(x) } *)
Fixpoint forM_ {E S A} (l : list A) (f : A -> M E S unit) : M E S unit :=
  match l with
  | [] => ret tt
  | x :: l' => bind (f x) (fun _ => forM_ l' f)
  end.

(** Modelled from the spec: [kv.WalkMemBuffer] is declared in package [kv].
    It walks the buffer in key order and calls [f] on each entry; the first
    call that returns an error ends the walk, and that error is returned. *)
Fixpoint walk {E S} (es : list (Key * bytes))
    (f : Key -> bytes -> M E S (option error)) : M E S (option error) :=
  match es with
  | [] => ret None
  | (k, v) :: es' =>
      bind (f k v) (fun err =>
        match err with
        | Some e => ret (errors_Trace (Some e))
        | None => walk es' f
        end)
  end.

Definition WalkMemBuffer {E S} (memBuf : MemBuffer.t)
    (f : Key -> bytes -> M E S (option error)) : M E S (option error) :=
  walk (MemBuffer.entries memBuf) f.

(** ** The collaborators *)

(* kv.Transaction, as far as this file calls it.  A value of [T] is the
   state of the transaction object; a method that may change the object
   returns its new state. *)
Class KVTransaction (Ctx T : Type) : Type := {
  txn_Get : T -> Key -> bytes * option error;
  txn_Set : T -> Key -> bytes -> T * option error;
  txn_Delete : T -> Key -> T * option error;
  txn_Commit : T -> Ctx -> T * option error;
  txn_Rollback : T -> T * option error;
  txn_Valid : T -> bool;
  txn_SetCap : T -> Z -> T
}.

(* The kinds of dirty table operation: constants of package [table]. *)
Class DirtyTableKinds : Type := {
  DirtyTableAddRow : Z;
  DirtyTableDeleteRow : Z;
  DirtyTableTruncate : Z
}.

(* What a computation leaves behind. *)
Definition outcome_of {E S A : Type} (r : outcome A * S * list E) : outcome A := fst (fst r).
Definition state_of {E S A : Type} (r : outcome A * S * list E) : S := snd (fst r).
Definition history_of {E S A : Type} (r : outcome A * S * list E) : list E := snd r.

Section Session.

Context {Ctx Datum T : Type} {KVT : KVTransaction Ctx T} {DTK : DirtyTableKinds}.

(* What the collaborators are asked to do, in the order of the calls. *)
Inductive Event : Type :=
| CallGet (k : Key)                               (* Transaction.Get *)
| CallSet (k : Key) (v : bytes)                   (* Transaction.Set *)
| CallDelete (k : Key)                            (* Transaction.Delete *)
| CallCommit (ctx : Ctx)                          (* Transaction.Commit *)
| CallRollback                                    (* Transaction.Rollback *)
| CallSetCap (txnCap : Z)                         (* Transaction.SetCap *)
| CallFutureWait                                  (* oracle.Future.Wait *)
| CallBeginWithStartTS (startTS : Z)              (* kv.Storage.BeginWithStartTS *)
| CallBegin                                       (* kv.Storage.Begin *)
| LogError (e : error)                            (* log.Error *)
| LogErrorf (format : string)                     (* log.Errorf *)
| DirtyAddRow (tid handle : Z) (row : list Datum) (* DirtyDB.AddRow *)
| DirtyDeleteRow (tid handle : Z)                 (* DirtyDB.DeleteRow *)
| DirtyTruncateTable (tid : Z).                   (* DirtyDB.TruncateTable *)

(* oracle.Future: what Wait() returns. *)
Record oracle_Future : Type := { future_Wait : Z * option error }.

(* kv.Storage: what Begin() and BeginWithStartTS(ts) return. *)
Record kv_Storage : Type := {
  store_Begin : option T * option error;
  store_BeginWithStartTS : Z -> option T * option error
}.

Record txnFutureT : Type := {
  future : oracle_Future;
  store : kv_Storage;
  mockFail : bool
}.

Record dirtyTableOperation : Type := {
  kind : Z;
  tid : Z;
  handle : Z;
  row : list Datum
}.

(* A TxnState on which init() has run: [buf] and [mutations] are allocated,
   and no method assigns them afterwards.  [Transaction] and [txnFuture]
   are [None] when the Go field is nil. *)
Record TxnState : Type := {
  Transaction : option T;
  txnFuture : option txnFutureT;
  buf : MemBuffer.t;
  mutations : gmap Z TableMutation;
  dirtyTableOP : list dirtyTableOperation;
  doNotCommit : option error
}.

Definition set_Transaction (x : option T) (st : TxnState) : TxnState :=
  {| Transaction := x; txnFuture := txnFuture st; buf := buf st;
     mutations := mutations st; dirtyTableOP := dirtyTableOP st;
     doNotCommit := doNotCommit st |}.

Definition set_txnFuture (x : option txnFutureT) (st : TxnState) : TxnState :=
  {| Transaction := Transaction st; txnFuture := x; buf := buf st;
     mutations := mutations st; dirtyTableOP := dirtyTableOP st;
     doNotCommit := doNotCommit st |}.

Definition set_buf (x : MemBuffer.t) (st : TxnState) : TxnState :=
  {| Transaction := Transaction st; txnFuture := txnFuture st; buf := x;
     mutations := mutations st; dirtyTableOP := dirtyTableOP st;
     doNotCommit := doNotCommit st |}.

Definition set_mutations (x : gmap Z TableMutation) (st : TxnState) : TxnState :=
  {| Transaction := Transaction st; txnFuture := txnFuture st; buf := buf st;
     mutations := x; dirtyTableOP := dirtyTableOP st;
     doNotCommit := doNotCommit st |}.

Definition set_dirtyTableOP (x : list dirtyTableOperation) (st : TxnState) : TxnState :=
  {| Transaction := Transaction st; txnFuture := txnFuture st; buf := buf st;
     mutations := mutations st; dirtyTableOP := x;
     doNotCommit := doNotCommit st |}.

Definition set_doNotCommit (x : option error) (st : TxnState) : TxnState :=
  {| Transaction := Transaction st; txnFuture := txnFuture st; buf := buf st;
     mutations := mutations st; dirtyTableOP := dirtyTableOP st;
     doNotCommit := x |}.

Local Open Scope go_scope.

(** *** Calls through the embedded kv.Transaction

    [st.Transaction.m(...)] panics when [st.Transaction] is nil; otherwise
    the call is recorded and the object takes its new state. *)

Definition Transaction_Get (k : Key) : M Event TxnState (bytes * option error) :=
  st <- get;;
  match Transaction st with
  | None => panic
  | Some t => call (CallGet k);;; ret (txn_Get t k)
  end.

Definition Transaction_Set (k : Key) (v : bytes) : M Event TxnState (option error) :=
  st <- get;;
  match Transaction st with
  | None => panic
  | Some t =>
      call (CallSet k v);;;
      modify (set_Transaction (Some (fst (txn_Set t k v))));;;
      ret (snd (txn_Set t k v))
  end.

Definition Transaction_Delete (k : Key) : M Event TxnState (option error) :=
  st <- get;;
  match Transaction st with
  | None => panic
  | Some t =>
      call (CallDelete k);;;
      modify (set_Transaction (Some (fst (txn_Delete t k))));;;
      ret (snd (txn_Delete t k))
  end.

Definition Transaction_Commit (ctx : Ctx) : M Event TxnState (option error) :=
  st <- get;;
  match Transaction st with
  | None => panic
  | Some t =>
      call (CallCommit ctx);;;
      modify (set_Transaction (Some (fst (txn_Commit t ctx))));;;
      ret (snd (txn_Commit t ctx))
  end.

Definition Transaction_Rollback : M Event TxnState (option error) :=
  st <- get;;
  match Transaction st with
  | None => panic
  | Some t =>
      call CallRollback;;;
      modify (set_Transaction (Some (fst (txn_Rollback t))));;;
      ret (snd (txn_Rollback t))
  end.

(** *** TxnState *)

Definition init : M Event TxnState unit :=
  modify (set_buf (MemBuffer.NewMemDbBuffer DefaultTxnMembufCap));;;
  modify (set_mutations ∅).

(* Valid, pending and validOrPending only read the receiver; the
   underlying Valid() is an observer and is not recorded. *)
Definition Valid (st : TxnState) : bool :=
  match Transaction st with
  | Some t => txn_Valid t
  | None => false
  end.

Definition pending (st : TxnState) : bool :=
  match Transaction st, txnFuture st with
  | None, Some _ => true
  | _, _ => false
  end.

Definition validOrPending (st : TxnState) : bool :=
  match txnFuture st with
  | Some _ => true
  | None => Valid st
  end.

Definition changeInvalidToValid (txn : option T) : M Event TxnState unit :=
  modify (set_Transaction txn);;;
  modify (set_txnFuture None).

Definition changeInvalidToPending (future : option txnFutureT) : M Event TxnState unit :=
  modify (set_Transaction None);;;
  modify (set_txnFuture future).

(* txnFuture.wait; it does not touch any TxnState, so it runs on any
   receiver. *)
Definition wait {S : Type} (tf : txnFutureT) : M Event S (option T * option error) :=
  if mockFail tf then
    ret (None, Some (errors_New "mock get timestamp fail"))
  else
    call CallFutureWait;;;
    let startTS := fst (future_Wait (future tf)) in
    let err := snd (future_Wait (future tf)) in
    match err with
    | None =>
        call (CallBeginWithStartTS startTS);;;
        ret (store_BeginWithStartTS (store tf) startTS)
    | Some _ =>
        (* It would retry get timestamp. *)
        call CallBegin;;;
        ret (store_Begin (store tf))
    end.

Definition changePendingToValid (txnCap : Z) : M Event TxnState (option error) :=
  st <- get;;
  match txnFuture st with
  | None => ret (Some (errors_New "transaction future is not set"))
  | Some future =>
      modify (set_txnFuture None);;;
      r <- wait future;;
      match snd r with
      | Some e =>
          modify (set_Transaction None);;;
          ret (errors_Trace (Some e))
      | None =>
          match fst r with
          | None => panic   (* txn.SetCap on a nil interface *)
          | Some txn =>
              call (CallSetCap txnCap);;;
              modify (set_Transaction (Some (txn_SetCap txn txnCap)));;;
              ret None
          end
      end
  end.

Definition changeToInvalid : M Event TxnState unit :=
  modify (set_Transaction None);;;
  modify (set_txnFuture None).

(* dirtyTableOperation{} *)
Definition empty_dirtyTableOperation : dirtyTableOperation :=
  {| kind := 0; tid := 0; handle := 0; row := [] |}.

(* The keys of [st.mutations], as the range statement meets them. *)
Definition mutation_keys (m : gmap Z TableMutation) : list Z :=
  (map_to_list m).*1.

Definition cleanup : M Event TxnState unit :=
  modify (fun st => set_buf (MemBuffer.Reset (buf st)) st);;;
  modify (fun st =>
    set_mutations
      (foldr (fun key m => delete key m) (mutations st) (mutation_keys (mutations st)))
      st);;;
  (* every slot is overwritten with the zero value, then the slice is cut
     to length 0; a nil slice has no slot and stays empty *)
  modify (fun st =>
    set_dirtyTableOP
      (take 0 (map (fun _ => empty_dirtyTableOperation) (dirtyTableOP st)))
      st).

Definition reset : M Event TxnState unit :=
  modify (set_doNotCommit None);;;
  cleanup;;;
  changeToInvalid.

Definition Commit (ctx : Ctx) : M Event TxnState (option error) :=
  defer reset (
    st <- get;;
    if negb (Z.of_nat (size (mutations st)) =? 0)%Z
       || negb (Z.of_nat (length (dirtyTableOP st)) =? 0)%Z
       || negb (MemBuffer.Len (buf st) =? 0)%Z
    then
      call (LogErrorf "The code should never run here");;;
      ret (Some (errors_New "invalid transaction"))
    else
      match doNotCommit st with
      | Some _ =>
          err1 <- Transaction_Rollback;;
          match err1 with
          | Some e1 => call (LogError e1)
          | None => ret tt
          end;;;
          st' <- get;;
          ret (errors_Trace (doNotCommit st'))
      | None =>
          err <- Transaction_Commit ctx;;
          ret (errors_Trace err)
      end).

Definition Rollback : M Event TxnState (option error) :=
  defer reset (
    err <- Transaction_Rollback;;
    ret (errors_Trace err)).

(* The tail of Get, once [val] and [err] are settled. *)
Definition Get_checked (val : bytes) (err : option error)
  : M Event TxnState (bytes * option error) :=
  match err with
  | Some e => ret (nil_bytes, errors_Trace (Some e))
  | None =>
      if (len val =? 0)%Z then ret (nil_bytes, Some ErrNotExist)
      else ret (val, None)
  end.

Definition Get (k : Key) : M Event TxnState (bytes * option error) :=
  st <- get;;
  let val := fst (MemBuffer.Get (buf st) k) in
  let err := snd (MemBuffer.Get (buf st) k) in
  if IsErrNotFound err then
    r <- Transaction_Get k;;
    if IsErrNotFound (snd r) then ret (nil_bytes, snd r)
    else Get_checked (fst r) (snd r)
  else Get_checked val err.

Definition Set_ (k : Key) (v : bytes) : M Event TxnState (option error) :=
  st <- get;;
  modify (set_buf (fst (MemBuffer.Set_ (buf st) k v)));;;
  ret (snd (MemBuffer.Set_ (buf st) k v)).

Definition Delete (k : Key) : M Event TxnState (option error) :=
  st <- get;;
  modify (set_buf (fst (MemBuffer.Delete (buf st) k)));;;
  ret (snd (MemBuffer.Delete (buf st) k)).

(** *** The session: statement commit and rollback *)

(* The part of [session] this file works on: the transaction [s.txn] and
   the Mutations of the prewrite value binloginfo.GetPrewriteValue(s, true)
   hands out, which lives in the session's variables. *)
Record session : Type := {
  txn : TxnState;
  bin_Mutations : list TableMutation
}.

Definition set_txn (x : TxnState) (s : session) : session :=
  {| txn := x; bin_Mutations := bin_Mutations s |}.

Definition set_bin_Mutations (x : list TableMutation) (s : session) : session :=
  {| txn := txn s; bin_Mutations := x |}.

(* A method of [s.txn] run from a method of [s] (st := &s.txn). *)
Definition on_txn {A : Type} (m : M Event TxnState A) : M Event session A :=
  fun s h =>
    match m (txn s) h with
    | (o, st', h') => (o, set_txn st' s, h')
    end.

(* The first index i with bin.Mutations[i].TableId == tableID. *)
Fixpoint find_TableId (ms : list TableMutation) (tableID : Z) : option nat :=
  match ms with
  | [] => None
  | m :: ms' =>
      if (TableId m =? tableID)%Z then Some 0%nat
      else S <$> find_TableId ms' tableID
  end.

(* The pointer &bin.Mutations[i] is the index i. *)
Definition getBinlogMutation (tableID : Z) : M Event session nat :=
  s <- get;;
  match find_TableId (bin_Mutations s) tableID with
  | Some i => ret i
  | None =>
      let idx := length (bin_Mutations s) in
      modify (set_bin_Mutations (bin_Mutations s ++ [TableMutation_of tableID]));;;
      ret idx
  end.

Definition mergeToDirtyDB (op : dirtyTableOperation) : M Event session unit :=
  if (kind op =? DirtyTableAddRow)%Z then
    call (DirtyAddRow (tid op) (handle op) (row op))
  else if (kind op =? DirtyTableDeleteRow)%Z then
    call (DirtyDeleteRow (tid op) (handle op))
  else if (kind op =? DirtyTableTruncate)%Z then
    call (DirtyTruncateTable (tid op))
  else ret tt.

(* The callback StmtCommit hands to kv.WalkMemBuffer.  [count] is only
   incremented by a failpoint that is compiled out, so it stays 0. *)
Definition flush_entry (count : Z) (k : Key) (v : bytes)
  : M Event session (option error) :=
  if (count >? 3)%Z then ret (Some (errors_New "mock stmt commit error"))
  else if (len v =? 0)%Z then
    err <- on_txn (Transaction_Delete k);; ret (errors_Trace err)
  else
    err <- on_txn (Transaction_Set k v);; ret (errors_Trace err).

Definition StmtCommit : M Event session (option error) :=
  defer (on_txn cleanup) (
    let count := 0%Z in
    s <- get;;
    err <- WalkMemBuffer (buf (txn s)) (flush_entry count);;
    match err with
    | Some e =>
        on_txn (modify (set_doNotCommit (Some e)));;;
        ret (errors_Trace (Some e))
    | None =>
        (* Need to flush binlog. *)
        s <- get;;
        forM_ (map_to_list (mutations (txn s))) (fun entry =>
          mutation <- getBinlogMutation (fst entry);;
          modify (fun s =>
            set_bin_Mutations
              (alter (fun m1 => mergeToMutation m1 (snd entry)) mutation (bin_Mutations s))
              s));;;
        s <- get;;
        (if (Z.of_nat (length (dirtyTableOP (txn s))) >? 0)%Z then
           forM_ (dirtyTableOP (txn s)) mergeToDirtyDB
         else ret tt);;;
        ret None
    end).

Definition StmtRollback : M Event session unit :=
  on_txn cleanup.

Definition StmtGetMutation (tableID : Z) : M Event session TableMutation :=
  s <- get;;
  match mutations (txn s) !! tableID with
  | Some m => ret m
  | None =>
      on_txn (modify (set_mutations (<[tableID := TableMutation_of tableID]> (mutations (txn s)))));;;
      ret (TableMutation_of tableID)
  end.

Definition StmtAddDirtyTableOP (op : Z) (tid handle : Z) (row : list Datum)
  : M Event session unit :=
  on_txn (modify (fun st =>
    set_dirtyTableOP
      (dirtyTableOP st ++ [{| kind := op; tid := tid; handle := handle; row := row |}])
      st)).

(** *** Vocabulary of the properties *)

(* The three phases, as the comment on the struct defines them. *)
Definition phase_Invalid (st : TxnState) : Prop :=
  Transaction st = None /\ txnFuture st = None.

Definition phase_Pending (st : TxnState) : Prop :=
  Transaction st = None /\ txnFuture st <> None.

Definition phase_Valid (st : TxnState) : Prop :=
  Transaction st <> None /\ txnFuture st = None.

(* The overlay, the ledger and the dirty-operation log hold nothing. *)
Definition drained (st : TxnState) : Prop :=
  MemBuffer.Len (buf st) = 0%Z /\ mutations st = ∅ /\ dirtyTableOP st = [].

(* The state reset() leaves. *)
Definition is_reset (st : TxnState) : Prop :=
  phase_Invalid st /\ Valid st = false /\ drained st /\ doNotCommit st = None.

(* The underlying transaction was asked to commit. *)
Definition calls_Commit (evs : list Event) : Prop :=
  exists ctx : Ctx, CallCommit ctx ∈ evs.

(* What log.Error(err1) adds to the history when err1 is not nil. *)
Definition logged (err : option error) : list Event :=
  match err with
  | Some e => [LogError e]
  | None => []
  end.

(* A freshly initialised TxnState: the zero value after init(). *)
Definition initial : TxnState :=
  {| Transaction := None; txnFuture := None;
     buf := MemBuffer.NewMemDbBuffer DefaultTxnMembufCap;
     mutations := ∅; dirtyTableOP := []; doNotCommit := None |}.

(* One call of a method of this file on the transaction of a session. *)
Inductive transition : TxnState -> TxnState -> Prop :=
| tr_changeInvalidToValid (txn : option T) st h :
    transition st (state_of (changeInvalidToValid txn st h))
| tr_changeInvalidToPending (future : option txnFutureT) st h :
    transition st (state_of (changeInvalidToPending future st h))
| tr_changePendingToValid (txnCap : Z) st h :
    transition st (state_of (changePendingToValid txnCap st h))
| tr_changeToInvalid st h :
    transition st (state_of (changeToInvalid st h))
| tr_Commit (ctx : Ctx) st h :
    transition st (state_of (Commit ctx st h))
| tr_Rollback st h :
    transition st (state_of (Rollback st h))
| tr_Get (k : Key) st h :
    transition st (state_of (Get k st h))
| tr_Set (k : Key) (v : bytes) st h :
    transition st (state_of (Set_ k v st h))
| tr_Delete (k : Key) st h :
    transition st (state_of (Delete k st h))
| tr_StmtCommit (s : session) h :
    transition (txn s) (txn (state_of (StmtCommit s h)))
| tr_StmtRollback (s : session) h :
    transition (txn s) (txn (state_of (StmtRollback s h))).

Inductive reachable : TxnState -> Prop :=
| reach_initial : reachable initial
| reach_step st st' : reachable st -> transition st st' -> reachable st'.

(* The error of the first write of the drain that fails, when the entries
   [es] are flushed in order into a transaction in state [t]. *)
Fixpoint drain_failure (es : list (Key * bytes)) (t : T) : option error :=
  match es with
  | [] => None
  | (k, v) :: es' =>
      let r := if (len v =? 0)%Z then txn_Delete t k else txn_Set t k v in
      match snd r with
      | Some e => Some e
      | None => drain_failure es' (fst r)
      end
  end.

(** *** Vocabulary of the further properties *)

(* The call the drain of StmtCommit makes for one overlay entry. *)
Definition write_call (entry : Key * bytes) : Event :=
  if (len (snd entry) =? 0)%Z then CallDelete (fst entry)
  else CallSet (fst entry) (snd entry).

(* The transaction object after the drain of [es] into a transaction in
   state [t]; the drain stops after the first write that fails. *)
Fixpoint drain_result (es : list (Key * bytes)) (t : T) : T :=
  match es with
  | [] => t
  | (k, v) :: es' =>
      let r := if (len v =? 0)%Z then txn_Delete t k else txn_Set t k v in
      match snd r with
      | Some _ => fst r
      | None => drain_result es' (fst r)
      end
  end.

(* The entries the drain reaches: all of them, or those up to and
   including the first whose write fails. *)
Fixpoint drained_entries (es : list (Key * bytes)) (t : T) : list (Key * bytes) :=
  match es with
  | [] => []
  | (k, v) :: es' =>
      let r := if (len v =? 0)%Z then txn_Delete t k else txn_Set t k v in
      (k, v) ::
      match snd r with
      | Some _ => []
      | None => drained_entries es' (fst r)
      end
  end.

(* The call on the dirty table that mergeToDirtyDB makes for [op], if any. *)
Definition dirty_call (op : dirtyTableOperation) : list Event :=
  if (kind op =? DirtyTableAddRow)%Z then [DirtyAddRow (tid op) (handle op) (row op)]
  else if (kind op =? DirtyTableDeleteRow)%Z then [DirtyDeleteRow (tid op) (handle op)]
  else if (kind op =? DirtyTableTruncate)%Z then [DirtyTruncateTable (tid op)]
  else [].

(* The entry of bin.Mutations that getBinlogMutation finds for [tableID]:
   the first one with that TableId. *)
Fixpoint lookup_table (ms : list TableMutation) (tableID : Z) : option TableMutation :=
  match ms with
  | [] => None
  | m :: ms' => if (TableId m =? tableID)%Z then Some m else lookup_table ms' tableID
  end.

(* What one round of the binlog loop of StmtCommit does to bin.Mutations. *)
Definition binlog_merge (ms : list TableMutation) (entry : Z * TableMutation)
  : list TableMutation :=
  match find_TableId ms (fst entry) with
  | Some i => alter (fun m1 => mergeToMutation m1 (snd entry)) i ms
  | None =>
      alter (fun m1 => mergeToMutation m1 (snd entry)) (length ms)
        (ms ++ [TableMutation_of (fst entry)])
  end.

(* One call made while a statement runs or at its boundary: a read or a
   write through the overlay, the staging of a side effect, StmtCommit or
   StmtRollback. *)
Inductive statement_step : TxnState -> TxnState -> Prop :=
| ss_Get (k : Key) st h :
    statement_step st (state_of (Get k st h))
| ss_Set (k : Key) (v : bytes) st h :
    statement_step st (state_of (Set_ k v st h))
| ss_Delete (k : Key) st h :
    statement_step st (state_of (Delete k st h))
| ss_StmtGetMutation (tableID : Z) (s : session) h :
    statement_step (txn s) (txn (state_of (StmtGetMutation tableID s h)))
| ss_StmtAddDirtyTableOP (op tid handle : Z) (row : list Datum) (s : session) h :
    statement_step (txn s) (txn (state_of (StmtAddDirtyTableOP op tid handle row s h)))
| ss_StmtCommit (s : session) h :
    statement_step (txn s) (txn (state_of (StmtCommit s h)))
| ss_StmtRollback (s : session) h :
    statement_step (txn s) (txn (state_of (StmtRollback s h))).

End Session.

Arguments Event : clear implicits.
Arguments oracle_Future : clear implicits.
Arguments kv_Storage : clear implicits.
Arguments txnFutureT : clear implicits.
Arguments dirtyTableOperation : clear implicits.
Arguments TxnState : clear implicits.
Arguments session : clear implicits.

(** ** A scripted transaction

    The transaction the examples run against: a key-value store that can be
    told to fail its writes, its commit or its rollback. *)

Record MockTxn : Type := {
  mock_data : MemBuffer.t;
  mock_write_err : option error;
  mock_commit_err : option error;
  mock_rollback_err : option error;
  mock_live : bool;
  mock_cap : Z
}.

Definition mock_with_data (d : MemBuffer.t) (t : MockTxn) : MockTxn :=
  {| mock_data := d; mock_write_err := mock_write_err t;
     mock_commit_err := mock_commit_err t;
     mock_rollback_err := mock_rollback_err t;
     mock_live := mock_live t; mock_cap := mock_cap t |}.

Definition mock_ended (t : MockTxn) : MockTxn :=
  {| mock_data := mock_data t; mock_write_err := mock_write_err t;
     mock_commit_err := mock_commit_err t;
     mock_rollback_err := mock_rollback_err t;
     mock_live := false; mock_cap := mock_cap t |}.

Definition mock_write (k : Key) (v : bytes) (t : MockTxn) : MockTxn * option error :=
  match mock_write_err t with
  | Some e => (t, Some e)
  | None => (mock_with_data (MemBuffer.put k v (mock_data t)) t, None)
  end.

#[global] Instance MockTxn_KVTransaction : KVTransaction unit MockTxn := {|
  txn_Get t k := MemBuffer.Get (mock_data t) k;
  txn_Set t k v := mock_write k v t;
  txn_Delete t k := mock_write k nil_bytes t;
  txn_Commit t _ := (mock_ended t, mock_commit_err t);
  txn_Rollback t := (mock_ended t, mock_rollback_err t);
  txn_Valid t := mock_live t;
  txn_SetCap t n :=
    {| mock_data := mock_data t; mock_write_err := mock_write_err t;
       mock_commit_err := mock_commit_err t;
       mock_rollback_err := mock_rollback_err t;
       mock_live := mock_live t; mock_cap := n |}
|}.

#[global] Instance mock_DirtyTableKinds : DirtyTableKinds := {|
  DirtyTableAddRow := 0;
  DirtyTableDeleteRow := 1;
  DirtyTableTruncate := 2
|}.

(* A live transaction over the store [d]. *)
Definition mock_txn (d : MemBuffer.t) (write_err rollback_err : option error) : MockTxn :=
  {| mock_data := d; mock_write_err := write_err; mock_commit_err := None;
     mock_rollback_err := rollback_err; mock_live := true; mock_cap := 0 |}.

(* A TxnState in the Valid phase over [t], with overlay [b]. *)
Definition mock_state (t : MockTxn) (b : MemBuffer.t) : TxnState Z MockTxn :=
  {| Transaction := Some t; txnFuture := None; buf := b;
     mutations := ∅; dirtyTableOP := []; doNotCommit := None |}.

Definition mock_session (t : MockTxn) (b : MemBuffer.t) : session Z MockTxn :=
  {| txn := mock_state t b; bin_Mutations := [] |}.

(* A future over a store whose transactions start empty. *)
Definition mock_future (ts : Z * option error) (fail : bool) : txnFutureT MockTxn :=
  {| future := {| future_Wait := ts |};
     store := {| store_Begin := (Some (mock_txn [] None None), None);
                 store_BeginWithStartTS := fun _ => (Some (mock_txn [] None None), None) |};
     mockFail := fail |}.

(* An overlay with one pending write and one tombstone. *)
Definition overlay_ab : MemBuffer.t :=
  MemBuffer.put "b" nil_bytes (MemBuffer.put "a" "1" []).

(* A transaction that refuses every write and whose rollback fails. *)
Definition broken_txn : MockTxn :=
  mock_txn [("a", "0")%string] (Some (errors_New "write refused"))
    (Some (errors_New "rollback failed")).

(* A transaction that takes everything. *)
Definition sound_txn : MockTxn := mock_txn [("a", "0")%string] None None.

Definition no_history : list (Event unit Z) := [].

(* A transaction whose commit fails. *)
Definition failing_commit_txn : MockTxn :=
  {| mock_data := []; mock_write_err := None;
     mock_commit_err := Some (errors_New "commit failed");
     mock_rollback_err := None; mock_live := true; mock_cap := 0 |}.

(* The oracle is down: waiting for the timestamp fails. *)
Definition oracle_down : txnFutureT MockTxn :=
  mock_future (0%Z, Some (errors_New "PD server timeout")) false.

(* The oracle answers with timestamp 42. *)
Definition oracle_up : txnFutureT MockTxn := mock_future (42%Z, None) false.

(* The state after a session has attached [oracle_up] and resolved it. *)
Definition resolved_state : TxnState Z MockTxn :=
  state_of (changePendingToValid 8
    (state_of (changeInvalidToPending (Some oracle_up) initial no_history))
    no_history).

(* A future flagged to fail. *)
Definition oracle_mocked : txnFutureT MockTxn := mock_future (0%Z, None) true.

(* A session in the middle of a statement: two writes in the overlay, a
   delta for table 4 in the ledger, two staged dirty-table operations, and
   an earlier mutation of table 4 in the session's binlog. *)
Definition staged_session : session Z MockTxn :=
  {| txn :=
       {| Transaction := Some sound_txn; txnFuture := None; buf := overlay_ab;
          mutations := {[ 4%Z := mkTableMutation 4 ["r1"%string] [] [] [] [] [] ]};
          dirtyTableOP :=
            [ {| kind := 0; tid := 4; handle := 1; row := [7%Z] |};
              {| kind := 2; tid := 5; handle := 0; row := [] |} ];
          doNotCommit := None |};
     bin_Mutations := [mkTableMutation 4 ["r0"%string] [] [] [] [] []] |}.

(* The session after a statement commit whose first write was refused. *)
Definition poisoned_session : session Z MockTxn :=
  state_of (StmtCommit (mock_session broken_txn overlay_ab) no_history).

(* The poisoned transaction after one more write and a statement rollback. *)
Definition poisoned_later : TxnState Z MockTxn :=
  txn (state_of (StmtRollback
    {| txn := state_of (Set_ "c" "3" (txn poisoned_session) no_history);
       bin_Mutations := [] |} no_history)).

(* A session with buffered writes and no transaction. *)
Definition orphan_session : session Z MockTxn :=
  {| txn := state_of (Set_ "a" "1" initial no_history); bin_Mutations := [] |}.

(* set x=1, commit the statement, set x=2, roll the statement back, get x. *)
Definition scenario_commit_then_rollback
  : M (Event unit Z) (session Z MockTxn) (bytes * option error) :=
  (on_txn (Set_ "x" "1");;;
   StmtCommit;;;
   on_txn (Set_ "x" "2");;;
   StmtRollback;;;
   on_txn (Get "x"))%go.

(* set a=1, roll the statement back, get a. *)
Definition scenario_rollback_discards
  : M (Event unit Z) (session Z MockTxn) (bytes * option error) :=
  (on_txn (Set_ "a" "1");;;
   StmtRollback;;;
   on_txn (Get "a"))%go.

(* Runs the monadic glue of a computation applied to a state and a history. *)
Ltac run :=
  repeat (progress (unfold bind, get, call, ret, modify, panic; cbv beta iota)).

(** * Properties *)

Lemma lookup_put_eq (b : MemBuffer.t) (k : Key) (v : bytes) :
  MemBuffer.lookup (MemBuffer.put k v b) k = Some v.
Proof.
  induction b as [|[k' v'] b IH]; simpl.
  - by rewrite String.eqb_refl.
  - destruct (String.compare k k') eqn:Hc; simpl.
    + by rewrite String.eqb_refl.
    + by rewrite String.eqb_refl.
    + destruct (String.eqb_spec k k') as [->|_]; [|exact IH].
      pose proof (String.compare_antisym k' k') as Ha.
      rewrite Hc in Ha. discriminate Ha.
Qed.

(* put keeps the overlay in key order, so the walk meets keys in order. *)
Lemma put_HdRel (k k0 : Key) (v v0 : bytes) (b : MemBuffer.t) :
  String.compare k0 k = Lt ->
  HdRel key_lt (k0, v0) b ->
  HdRel key_lt (k0, v0) (MemBuffer.put k v b).
Proof.
  intros Hlt Hhd. destruct b as [|[k' v'] b]; simpl.
  - by constructor.
  - destruct (String.compare k k'); constructor; try done.
    by inversion Hhd.
Qed.

Lemma put_Sorted (k : Key) (v : bytes) (b : MemBuffer.t) :
  Sorted key_lt b -> Sorted key_lt (MemBuffer.put k v b).
Proof.
  induction 1 as [|[k' v'] b Hsorted IH Hhd]; simpl.
  - by repeat constructor.
  - destruct (String.compare k k') eqn:Hc.
    + apply String.compare_eq_iff in Hc as ->.
      constructor; [done|]. inversion Hhd; by constructor.
    + constructor; [by constructor|]. by constructor.
    + constructor; [exact IH|]. apply put_HdRel; [|done].
      rewrite String.compare_antisym, Hc. reflexivity.
Qed.

Lemma len_zero_iff (v : bytes) : (len v =? 0)%Z = true <-> v = nil_bytes.
Proof.
  unfold len, nil_bytes. destruct v; simpl; split; intros Hv; done.
Qed.

(* Deleting every key the range statement meets empties the map. *)
Lemma lookup_foldr_delete (ks : list Z) (m : gmap Z TableMutation) (k : Z) :
  foldr (fun key m => delete key m) m ks !! k
  = if decide (k ∈ ks) then None else m !! k.
Proof.
  induction ks as [|k' ks IH]; simpl.
  - destruct (decide (k ∈ [])) as [Hin|_]; [by apply elem_of_nil in Hin | done].
  - destruct (decide (k' = k)) as [->|Hne].
    + rewrite lookup_delete_eq. rewrite decide_True; [done | by left].
    + rewrite lookup_delete_ne by done. rewrite IH.
      destruct (decide (k ∈ ks)) as [Hin|Hin].
      * rewrite decide_True; [done | by right].
      * rewrite decide_False; [done|].
        intros [?|?]%elem_of_cons; by auto.
Qed.

Lemma delete_all_keys (m : gmap Z TableMutation) :
  foldr (fun key m => delete key m) m (mutation_keys m) = ∅.
Proof.
  apply map_empty. intros k. rewrite lookup_foldr_delete.
  case_decide as Hin; [done|].
  destruct (m !! k) as [x|] eqn:Hk; [|done].
  exfalso. apply Hin. unfold mutation_keys.
  apply list_elem_of_fmap. exists (k, x). split; [done|].
  by apply elem_of_map_to_list.
Qed.

Section Properties.

Context {Ctx Datum T : Type} {KVT : KVTransaction Ctx T} {DTK : DirtyTableKinds}.

Implicit Types (st : TxnState Datum T) (s : session Datum T).
Implicit Types (h : list (Event Ctx Datum)) (k : Key) (v : bytes).

(** ** cleanup and reset *)

Lemma cleanup_run st h :
  cleanup (Ctx := Ctx) st h
  = (Return tt, set_dirtyTableOP [] (set_mutations ∅ (set_buf [] st)), h).
Proof.
  unfold cleanup, bind, modify. simpl.
  by rewrite delete_all_keys.
Qed.

Lemma reset_run st h : reset (Ctx := Ctx) st h = (Return tt, initial, h).
Proof.
  unfold reset, bind, modify. rewrite cleanup_run. reflexivity.
Qed.

Lemma initial_is_reset : is_reset (initial (Datum := Datum) (T := T)).
Proof. by repeat split. Qed.

Lemma defer_reset_run {A : Type} (body : M (Event Ctx Datum) (TxnState Datum T) A) st h :
  defer reset body st h
  = (outcome_of (body st h), initial, history_of (body st h)).
Proof.
  unfold defer. destruct (body st h) as [[o s1] h1].
  by rewrite reset_run.
Qed.

Lemma defer_cleanup_run {A : Type} (body : M (Event Ctx Datum) (session Datum T) A) s h :
  defer (on_txn cleanup) body s h
  = (outcome_of (body s h),
     set_txn (set_dirtyTableOP [] (set_mutations ∅ (set_buf [] (txn (state_of (body s h))))))
       (state_of (body s h)),
     history_of (body s h)).
Proof.
  unfold defer, on_txn. destruct (body s h) as [[o s1] h1].
  by rewrite cleanup_run.
Qed.

Lemma not_calls_Commit_nil : ~ calls_Commit (Ctx := Ctx) (Datum := Datum) [].
Proof. intros [c Hc]. by apply elem_of_nil in Hc. Qed.

Lemma not_calls_Commit_app (evs1 evs2 : list (Event Ctx Datum)) :
  ~ calls_Commit evs1 -> ~ calls_Commit evs2 -> ~ calls_Commit (evs1 ++ evs2).
Proof.
  intros H1 H2 [c Hc]. apply elem_of_app in Hc as [Hc|Hc].
  - apply H1. by exists c.
  - apply H2. by exists c.
Qed.

Lemma not_calls_Commit_cons (ev : Event Ctx Datum) (evs : list (Event Ctx Datum)) :
  (forall c, ev <> CallCommit c) -> ~ calls_Commit evs -> ~ calls_Commit (ev :: evs).
Proof.
  intros Hev Hevs [c Hc]. apply elem_of_cons in Hc as [Hc|Hc].
  - by apply (Hev c).
  - apply Hevs. by exists c.
Qed.

Lemma not_calls_Commit_logged (err : option error) :
  ~ calls_Commit (Ctx := Ctx) (Datum := Datum) (logged err).
Proof.
  destruct err; simpl; [|apply not_calls_Commit_nil].
  apply not_calls_Commit_cons; [done | apply not_calls_Commit_nil].
Qed.

(** ** Transaction commit and rollback *)

(** C2.  With anything left in the overlay, the mutation ledger or the
    dirty-operation log, Commit returns the error "invalid transaction",
    asks nothing of the underlying transaction (its only trace is the line
    it logs), and leaves the state reset. *)
Theorem Commit_undrained_is_refused (ctx : Ctx) st h :
  MemBuffer.Len (buf st) <> 0%Z \/ mutations st <> ∅ \/ dirtyTableOP st <> [] ->
  exists st' evs,
    Commit ctx st h = (Return (Some (errors_New "invalid transaction")), st', h ++ evs) /\
    evs = [LogErrorf "The code should never run here"] /\
    ~ calls_Commit evs /\
    is_reset st'.
Proof.
  intros Hne.
  exists initial, [LogErrorf "The code should never run here"].
  split; [|split; [done|split; [|apply initial_is_reset]]].
  - unfold Commit, defer. run.
    assert (negb (Z.of_nat (size (mutations st)) =? 0)%Z
            || negb (Z.of_nat (length (dirtyTableOP st)) =? 0)%Z
            || negb (MemBuffer.Len (buf st) =? 0)%Z = true) as ->;
      [|run; by rewrite reset_run].
    destruct Hne as [Hb|[Hm|Hd]].
    + apply orb_true_iff. right. apply negb_true_iff. by apply Z.eqb_neq.
    + apply orb_true_iff. left. apply orb_true_iff. left.
      apply negb_true_iff, Z.eqb_neq.
      intros Hz. apply Hm. apply map_size_empty_iff. lia.
    + apply orb_true_iff. left. apply orb_true_iff. right.
      apply negb_true_iff, Z.eqb_neq.
      destruct (dirtyTableOP st); [done | simpl; lia].
  - apply not_calls_Commit_cons; [done | apply not_calls_Commit_nil].
Qed.

(* The test at the head of Commit passes on a drained state. *)
Lemma drained_test st :
  drained st ->
  negb (Z.of_nat (size (mutations st)) =? 0)%Z
  || negb (Z.of_nat (length (dirtyTableOP st)) =? 0)%Z
  || negb (MemBuffer.Len (buf st) =? 0)%Z = false.
Proof.
  intros (Hb & Hm & Hd). rewrite Hb, Hm, Hd. reflexivity.
Qed.

(* Commit on a drained state that carries a fault. *)
Lemma Commit_with_fault (ctx : Ctx) st h (t : T) (e : error) :
  drained st -> doNotCommit st = Some e -> Transaction st = Some t ->
  Commit ctx st h
  = (Return (Some e), initial, h ++ CallRollback :: logged (snd (txn_Rollback t))).
Proof.
  intros Hd He Ht. unfold Commit, defer. run.
  rewrite (drained_test st Hd), He.
  unfold Transaction_Rollback. run. rewrite Ht. run.
  destruct (txn_Rollback t) as [t' [e1|]]; cbn [fst snd]; run;
    rewrite reset_run; cbn [doNotCommit set_Transaction logged];
    rewrite He; unfold errors_Trace; by rewrite <- ?app_assoc.
Qed.

(* Commit on a drained state without a fault. *)
Lemma Commit_clean (ctx : Ctx) st h (t : T) :
  drained st -> doNotCommit st = None -> Transaction st = Some t ->
  Commit ctx st h = (Return (snd (txn_Commit t ctx)), initial, h ++ [CallCommit ctx]).
Proof.
  intros Hd He Ht. unfold Commit, defer. run.
  rewrite (drained_test st Hd), He.
  unfold Transaction_Commit. run. rewrite Ht. run.
  by rewrite reset_run.
Qed.

Lemma Rollback_run st h (t : T) :
  Transaction st = Some t ->
  Rollback st h = (Return (snd (txn_Rollback t)), initial, h ++ [CallRollback]).
Proof.
  intros Ht. unfold Rollback, defer, Transaction_Rollback. run.
  rewrite Ht. run. by rewrite reset_run.
Qed.

Lemma Commit_state (ctx : Ctx) st h : state_of (Commit ctx st h) = initial.
Proof. unfold Commit. by rewrite defer_reset_run. Qed.

Lemma Rollback_state st h : state_of (Rollback (Ctx := Ctx) st h) = initial.
Proof. unfold Rollback. by rewrite defer_reset_run. Qed.

Lemma test_false_drained st :
  negb (Z.of_nat (size (mutations st)) =? 0)%Z
  || negb (Z.of_nat (length (dirtyTableOP st)) =? 0)%Z
  || negb (MemBuffer.Len (buf st) =? 0)%Z = false ->
  drained st.
Proof.
  intros Htest.
  apply orb_false_iff in Htest as [Htest Hb].
  apply orb_false_iff in Htest as [Hm Hd].
  apply negb_false_iff, Z.eqb_eq in Hb, Hm, Hd.
  split; [done|]. split.
  - apply map_size_empty_iff. lia.
  - destruct (dirtyTableOP st); [done | simpl in Hd; lia].
Qed.

Lemma Commit_returns (ctx : Ctx) st h (t : T) :
  Transaction st = Some t -> exists err, outcome_of (Commit ctx st h) = Return err.
Proof.
  intros Ht.
  destruct (negb (Z.of_nat (size (mutations st)) =? 0)%Z
            || negb (Z.of_nat (length (dirtyTableOP st)) =? 0)%Z
            || negb (MemBuffer.Len (buf st) =? 0)%Z) eqn:Htest.
  - exists (Some (errors_New "invalid transaction")).
    unfold Commit, defer. run. rewrite Htest. run. by rewrite reset_run.
  - apply test_false_drained in Htest.
    destruct (doNotCommit st) as [e|] eqn:He.
    + exists (Some e). by rewrite (Commit_with_fault ctx st h t e).
    + eexists. by rewrite (Commit_clean ctx st h t).
Qed.

(** C3.  Whatever Commit and Rollback meet, the state they leave is the
    reset one: no transaction and no future (so Valid() is false), the
    overlay, the ledger and the dirty-operation log empty, the fault marker
    cleared; changeInvalidToPending then makes it pending.  This holds
    whether the underlying call succeeds or fails, and also when the method
    panics.  With a transaction in place both methods return, and the error
    of the underlying Commit or Rollback is the one they return. *)
Theorem Commit_Rollback_always_reset (ctx : Ctx) st h :
  is_reset (state_of (Commit ctx st h)) /\
  is_reset (state_of (Rollback st h)) /\
  (forall (f : txnFutureT T) st' h',
      st' = state_of (Commit ctx st h) \/ st' = state_of (Rollback st h) ->
      outcome_of (changeInvalidToPending (Some f) st' h') = Return tt /\
      pending (state_of (changeInvalidToPending (Some f) st' h')) = true) /\
  (forall t : T,
      Transaction st = Some t ->
      outcome_of (Rollback st h) = Return (snd (txn_Rollback t))) /\
  (forall t : T,
      Transaction st = Some t -> drained st -> doNotCommit st = None ->
      outcome_of (Commit ctx st h) = Return (snd (txn_Commit t ctx))) /\
  (forall t : T,
      Transaction st = Some t ->
      exists err, outcome_of (Commit ctx st h) = Return err).
Proof.
  rewrite Commit_state, Rollback_state.
  split; [apply initial_is_reset|]. split; [apply initial_is_reset|].
  split; [|split; [|split]].
  - intros f st' h' Hst'.
    assert (st' = initial) as -> by (by destruct Hst').
    by split.
  - intros t Ht. by rewrite (Rollback_run st h t).
  - intros t Ht Hd He. by rewrite (Commit_clean ctx st h t).
  - intros t Ht. exact (Commit_returns ctx st h t Ht).
Qed.

(** ** Reads and writes through the overlay *)

(* A key the overlay holds is answered from the overlay alone. *)
Lemma Get_overlay_hit st k v h :
  MemBuffer.lookup (buf st) k = Some v ->
  Get k st h
  = (Return (if (len v =? 0)%Z then (nil_bytes, Some ErrNotExist) else (v, None)), st, h).
Proof.
  intros Hk. unfold Get. run.
  unfold MemBuffer.Get. rewrite Hk. cbn [fst snd IsErrNotFound].
  unfold Get_checked. by destruct (len v =? 0)%Z.
Qed.

Lemma Get_checked_nonempty (val : bytes) (err : option error) st h v :
  outcome_of (Get_checked (Ctx := Ctx) val err st h) = Return (v, None) ->
  v <> nil_bytes.
Proof.
  unfold Get_checked. destruct err as [e|]; run; [by intros [=]|].
  destruct (len val =? 0)%Z eqn:Hlen; run; intros [= <-].
  intros Hv. apply len_zero_iff in Hv. congruence.
Qed.

(* Get never hands out an empty value as a value. *)
Lemma Get_never_empty st k h v :
  outcome_of (Get k st h) = Return (v, None) -> v <> nil_bytes.
Proof.
  unfold Get. run.
  destruct (IsErrNotFound (snd (MemBuffer.Get (buf st) k))).
  - unfold Transaction_Get. run. destruct (Transaction st) as [t|]; run; [|by intros [=]].
    destruct (IsErrNotFound (snd (txn_Get t k))) eqn:Hnf; run.
    + intros [= _ Herr]. rewrite Herr in Hnf. discriminate Hnf.
    + apply Get_checked_nonempty.
  - apply Get_checked_nonempty.
Qed.

(** C4.  After Delete(k), Get(k) returns kv.ErrNotExist: the tombstone in
    the overlay answers, the underlying transaction is not asked (the
    history does not grow), whatever it holds for k.  More generally a key
    the overlay binds to an empty value reads as not found, and Get never
    returns an empty value without an error. *)
Theorem Delete_then_Get_not_found st k h :
  (exists st1,
      Delete k st h = (Return None, st1, h) /\
      Transaction st1 = Transaction st /\
      Get k st1 h = (Return (nil_bytes, Some ErrNotExist), st1, h)) /\
  (MemBuffer.lookup (buf st) k = Some nil_bytes ->
   Get k st h = (Return (nil_bytes, Some ErrNotExist), st, h)) /\
  (forall v, outcome_of (Get k st h) = Return (v, None) -> v <> nil_bytes).
Proof.
  split; [|split].
  - exists (set_buf (MemBuffer.put k nil_bytes (buf st)) st).
    split; [done|]. split; [done|].
    rewrite (Get_overlay_hit _ k nil_bytes); [done|].
    apply lookup_put_eq.
  - intros Hk. by rewrite (Get_overlay_hit _ k nil_bytes).
  - intros v. apply Get_never_empty.
Qed.

(** C5, as amended.  After Set(k, v) with a value v that is not empty,
    Get(k) returns v: the overlay answers and the underlying transaction is
    not asked, whatever it holds for k. *)
Theorem Set_then_Get_shadows st k v h :
  v <> nil_bytes ->
  exists st1,
    Set_ k v st h = (Return None, st1, h) /\
    Transaction st1 = Transaction st /\
    Get k st1 h = (Return (v, None), st1, h).
Proof.
  intros Hv. exists (set_buf (MemBuffer.put k v (buf st)) st).
  split; [done|]. split; [done|].
  rewrite (Get_overlay_hit _ k v); [|apply lookup_put_eq].
  destruct (len v =? 0)%Z eqn:Hlen; [|done].
  apply len_zero_iff in Hlen. congruence.
Qed.

(** ** The transaction future *)

(** C8.  A future flagged to fail returns the error "mock get timestamp
    fail" and calls neither the oracle nor the store.  Otherwise it waits
    for the timestamp; when that succeeds the result is the store's
    BeginWithStartTS at exactly that timestamp, and when it fails the
    result is the store's Begin, the timestamp error being dropped. *)
Theorem wait_resolution {S : Type} (tf : txnFutureT T) (s : S) h :
  (mockFail tf = true ->
   wait tf s h = (Return (None, Some (errors_New "mock get timestamp fail")), s, h)) /\
  (forall startTS : Z,
      mockFail tf = false ->
      future_Wait (future tf) = (startTS, None) ->
      wait tf s h
      = (Return (store_BeginWithStartTS (store tf) startTS), s,
         h ++ [CallFutureWait; CallBeginWithStartTS startTS])) /\
  (forall (startTS : Z) (e : error),
      mockFail tf = false ->
      future_Wait (future tf) = (startTS, Some e) ->
      wait tf s h
      = (Return (store_Begin (store tf)), s, h ++ [CallFutureWait; CallBegin])).
Proof.
  split; [|split].
  - intros Hm. unfold wait. by rewrite Hm.
  - intros startTS Hm Hw. unfold wait. rewrite Hm, Hw. run.
    cbn [fst snd]. run. by rewrite <- app_assoc.
  - intros startTS e Hm Hw. unfold wait. rewrite Hm, Hw. run.
    cbn [fst snd]. run. by rewrite <- app_assoc.
Qed.

(* wait always returns, leaves the receiver alone, and what it returns and
   asks for does not depend on the receiver or on the history so far. *)
Lemma wait_run (tf : txnFutureT T) :
  exists r (evs : list (Event Ctx Datum)),
    (forall c, CallCommit c ∉ evs) /\
    forall (S : Type) (s : S) h, wait tf s h = (Return r, s, h ++ evs).
Proof.
  unfold wait. destruct (mockFail tf).
  - exists (None, Some (errors_New "mock get timestamp fail")), [].
    split; [intros c Hc; by apply elem_of_nil in Hc|].
    intros S s h. by rewrite app_nil_r.
  - destruct (future_Wait (future tf)) as [startTS [e|]]; cbn [fst snd].
    + exists (store_Begin (store tf)), [CallFutureWait; CallBegin].
      split; [intros c Hc; by repeat (apply elem_of_cons in Hc as [Hc|Hc]; [done|]);
              apply elem_of_nil in Hc|].
      intros S s h. run. by rewrite <- app_assoc.
    + exists (store_BeginWithStartTS (store tf) startTS),
        [CallFutureWait; CallBeginWithStartTS startTS].
      split; [intros c Hc; by repeat (apply elem_of_cons in Hc as [Hc|Hc]; [done|]);
              apply elem_of_nil in Hc|].
      intros S s h. run. by rewrite <- app_assoc.
Qed.

(** ** The phase transitions *)

(** C7.  changePendingToValid without a future returns the error
    "transaction future is not set" and changes nothing.  With a future
    [f]: when [f] resolves to a transaction, that transaction, with its
    capacity set to the caller's [txnCap], becomes the underlying
    transaction, the future is dropped and the phase is Valid; when [f]
    fails with [e], the state is left with neither transaction nor future
    and [e] is returned. *)
Theorem changePendingToValid_resolution (txnCap : Z) st h :
  (txnFuture st = None ->
   changePendingToValid txnCap st h
   = (Return (Some (errors_New "transaction future is not set")), st, h)) /\
  (forall (f : txnFutureT T) (txn : T),
      txnFuture st = Some f ->
      outcome_of (wait f st h) = Return (Some txn, None) ->
      exists st',
        changePendingToValid txnCap st h
        = (Return None, st', history_of (wait f st h) ++ [CallSetCap txnCap]) /\
        Transaction st' = Some (txn_SetCap txn txnCap) /\
        txnFuture st' = None /\
        phase_Valid st') /\
  (forall (f : txnFutureT T) (r : option T) (e : error),
      txnFuture st = Some f ->
      outcome_of (wait f st h) = Return (r, Some e) ->
      exists st',
        changePendingToValid txnCap st h
        = (Return (Some e), st', history_of (wait f st h)) /\
        phase_Invalid st').
Proof.
  split; [|split].
  - intros Hf. unfold changePendingToValid. run. by rewrite Hf.
  - intros f txn Hf Hw.
    destruct (wait_run f) as (r & evs & _ & Hrun).
    rewrite Hrun in Hw |- *. injection Hw as ->.
    exists (set_Transaction (Some (txn_SetCap txn txnCap)) (set_txnFuture None st)).
    split; [|by repeat split].
    unfold changePendingToValid. run. rewrite Hf. run. rewrite Hrun.
    cbn [fst snd]. by run.
  - intros f r e Hf Hw.
    destruct (wait_run f) as (r' & evs & _ & Hrun).
    rewrite Hrun in Hw |- *. injection Hw as ->.
    exists (set_Transaction None (set_txnFuture None st)).
    split; [|by split].
    unfold changePendingToValid. run. rewrite Hf. run. rewrite Hrun.
    cbn [fst snd]. by run.
Qed.

(** ** Statement commit *)

(* One step of the drain on a session that has a transaction. *)
Lemma flush_entry_run k v s h (t : T) :
  Transaction (txn s) = Some t ->
  let r := if (len v =? 0)%Z then txn_Delete t k else txn_Set t k v in
  exists ev,
    flush_entry 0 k v s h
    = (Return (snd r), set_txn (set_Transaction (Some (fst r)) (txn s)) s, h ++ [ev]) /\
    (forall c, ev <> CallCommit c).
Proof.
  intros Ht r. subst r. unfold flush_entry. cbn [Z.gtb Z.compare].
  destruct (len v =? 0)%Z.
  - exists (CallDelete k). split; [|done].
    unfold on_txn, Transaction_Delete. run. rewrite Ht. by run.
  - exists (CallSet k v). split; [|done].
    unfold on_txn, Transaction_Set. run. rewrite Ht. by run.
Qed.

(* The drain on a session that has a transaction: it returns the error of
   the first write that fails, and only the transaction object changes. *)
Lemma walk_flush_Some (es : list (Key * bytes)) :
  forall s h (t : T),
    Transaction (txn s) = Some t ->
    exists (t' : T) evs,
      walk es (flush_entry 0) s h
      = (Return (drain_failure es t),
         set_txn (set_Transaction (Some t') (txn s)) s, h ++ evs) /\
      ~ calls_Commit evs.
Proof.
  induction es as [|[k v] es IH]; intros s h t Ht.
  - exists t, []. split; [|apply not_calls_Commit_nil].
    destruct s as [[tr fu bu mu di dn] bm]. cbn in Ht. subst tr.
    cbn. by rewrite app_nil_r.
  - destruct (flush_entry_run k v s h t Ht) as (ev & Hstep & Hev).
    cbn [walk drain_failure]. unfold bind at 1. rewrite Hstep.
    destruct (snd (if (len v =? 0)%Z then txn_Delete t k else txn_Set t k v))
      as [e|] eqn:Herr.
    + eexists _, [ev]. split; [reflexivity|].
      apply not_calls_Commit_cons; [done | apply not_calls_Commit_nil].
    + edestruct (IH (set_txn (set_Transaction (Some (fst (if (len v =? 0)%Z then txn_Delete t k else txn_Set t k v))) (txn s)) s) (h ++ [ev]))
        as (t' & evs & Hwalk & Hevs); [reflexivity|].
      rewrite Hwalk. exists t', (ev :: evs). split.
      * cbn. by rewrite <- app_assoc.
      * by apply not_calls_Commit_cons.
Qed.

(* The drain on a session without a transaction: nothing to do on an empty
   overlay, a panic at the first entry otherwise. *)
Lemma walk_flush_None (es : list (Key * bytes)) s h :
  Transaction (txn s) = None ->
  walk es (flush_entry 0) s h
  = (match es with [] => Return None | _ :: _ => Panic end, s, h).
Proof.
  intros Ht. destruct s as [[tr fu bu mu di dn] bm]. cbn in Ht. subst tr.
  destruct es as [|[k v] es]; [done|].
  cbn [walk]. unfold flush_entry. cbn [Z.gtb Z.compare].
  destruct (len v =? 0)%Z; reflexivity.
Qed.

(* A loop whose body returns and leaves s.txn alone does the same. *)
Lemma forM__frame {A : Type} (f : A -> M (Event Ctx Datum) (session Datum T) unit)
    (l : list A) st0 :
  (forall x s h, txn s = st0 ->
     exists s' h', f x s h = (Return tt, s', h') /\ txn s' = st0) ->
  forall s h, txn s = st0 ->
    exists s' h', forM_ l f s h = (Return tt, s', h') /\ txn s' = st0.
Proof.
  intros Hf. induction l as [|x l IH]; intros s h Hs.
  - by exists s, h.
  - destruct (Hf x s h Hs) as (s1 & h1 & Hx & Hs1).
    destruct (IH s1 h1 Hs1) as (s2 & h2 & Hl & Hs2).
    exists s2, h2. split; [|done].
    cbn [forM_]. unfold bind. by rewrite Hx.
Qed.

(* The two loops that follow a successful drain return and leave s.txn
   alone: they write to the session's binlog and to the dirty table. *)
Lemma binlog_loop_frame (l : list (Z * TableMutation)) s h :
  exists s' h',
    forM_ l (fun entry =>
      bind (getBinlogMutation (fst entry)) (fun mutation =>
        modify (fun s : session Datum T =>
          set_bin_Mutations
            (alter (fun m1 => mergeToMutation m1 (snd entry)) mutation (bin_Mutations s))
            s))) s h
    = (Return tt, s', h') /\ txn s' = txn s.
Proof.
  apply forM__frame; [|done].
  intros x s0 h0 Hs0. unfold getBinlogMutation. run.
  destruct (find_TableId (bin_Mutations s0) x.1); run; by eexists _, _.
Qed.

Lemma dirty_loop_frame (l : list (dirtyTableOperation Datum)) s h :
  exists s' h',
    forM_ l mergeToDirtyDB s h = (Return tt, s', h') /\ txn s' = txn s.
Proof.
  apply forM__frame; [|done].
  intros x s0 h0 Hs0. unfold mergeToDirtyDB.
  repeat (match goal with |- context [if ?b then _ else _] => destruct b end);
    run; by eexists _, _.
Qed.

(* StmtCommit, given how its drain ends: the outcome is the drain's, a
   drain error is recorded in doNotCommit, and the deferred cleanup empties
   the three buffers of s.txn in every case. *)
Lemma StmtCommit_after_walk s h (o : outcome (option error)) s0 h0 :
  walk (MemBuffer.entries (buf (txn s))) (flush_entry 0) s h = (o, s0, h0) ->
  exists s' h',
    StmtCommit s h = (o, s', h') /\
    (forall e, o = Return (Some e) -> h' = h0) /\
    txn s'
    = set_dirtyTableOP [] (set_mutations ∅ (set_buf []
        match o with
        | Return (Some e) => set_doNotCommit (Some e) (txn s0)
        | _ => txn s0
        end)).
Proof.
  intros Hwalk.
  unfold StmtCommit, defer, WalkMemBuffer. unfold bind at 1, get at 1.
  unfold bind at 1. rewrite Hwalk.
  destruct o as [[e|]|].
  - unfold on_txn. run. rewrite cleanup_run.
    eexists _, _. split; [reflexivity|]. by split.
  - unfold bind at 1, get at 1. unfold bind at 1.
    match goal with |- context [forM_ ?l ?f ?s1 ?h1] =>
      destruct (binlog_loop_frame l s1 h1) as (s2 & h2 & Hloop1 & Hs2) end.
    rewrite Hloop1.
    unfold bind at 1, get at 1. unfold bind at 1.
    assert (exists s3 h3,
      (if (Z.of_nat (length (dirtyTableOP (txn s2))) >? 0)%Z
       then forM_ (dirtyTableOP (txn s2)) mergeToDirtyDB
       else ret tt) s2 h2 = (Return tt, s3, h3) /\ txn s3 = txn s2)
      as (s3 & h3 & Hloop2 & Hs3).
    { destruct (Z.of_nat (length (dirtyTableOP (txn s2))) >? 0)%Z.
      - apply dirty_loop_frame.
      - by exists s2, h2. }
    rewrite Hloop2. unfold ret, on_txn. rewrite cleanup_run.
    eexists _, _. split; [reflexivity|]. split; [done|].
    cbn [txn set_txn]. by rewrite Hs3, Hs2.
  - unfold on_txn. rewrite cleanup_run.
    eexists _, _. split; [reflexivity|]. by split.
Qed.

(** C1.  When a write of the drain fails with [e], StmtCommit returns [e]
    and leaves it in doNotCommit, with the buffers emptied and the
    transaction still in place.  A Commit that follows calls Rollback on
    the underlying transaction, logs the error of that rollback if there is
    one, and returns [e] whatever the rollback returned.  Neither call ever
    asks the underlying transaction to commit. *)
Theorem StmtCommit_fault_poisons_Commit (ctx : Ctx) s h (t : T) (e : error) :
  Transaction (txn s) = Some t ->
  drain_failure (MemBuffer.entries (buf (txn s))) t = Some e ->
  exists s' evs (t' : T),
    StmtCommit s h = (Return (Some e), s', h ++ evs) /\
    doNotCommit (txn s') = Some e /\
    Transaction (txn s') = Some t' /\
    (exists st'',
        Commit ctx (txn s') (h ++ evs)
        = (Return (Some e), st'',
           (h ++ evs) ++ CallRollback :: logged (snd (txn_Rollback t'))) /\
        is_reset st'') /\
    ~ calls_Commit (evs ++ CallRollback :: logged (snd (txn_Rollback t'))).
Proof.
  intros Ht Hfail.
  destruct (walk_flush_Some (MemBuffer.entries (buf (txn s))) s h t Ht)
    as (t' & evs & Hwalk & Hevs).
  rewrite Hfail in Hwalk.
  destruct (StmtCommit_after_walk s h _ _ _ Hwalk) as (s' & h' & Hrun & Hh' & Htxn).
  rewrite (Hh' e eq_refl) in Hrun.
  exists s', evs, t'. rewrite Htxn.
  split; [done|]. split; [done|]. split; [done|]. split.
  - exists initial. split; [|apply initial_is_reset].
    by apply Commit_with_fault.
  - apply not_calls_Commit_app; [done|].
    apply not_calls_Commit_cons; [done|]. apply not_calls_Commit_logged.
Qed.

(** C10.  However StmtCommit ends, with a clean drain, with a failed write
    or with a panic, the overlay, the mutation ledger and the
    dirty-operation log of the state it leaves are empty.  When it returns
    an error, that error is in doNotCommit.  With a transaction in place it
    always returns, and what it returns is the first failure of the drain,
    if any. *)
Theorem StmtCommit_always_drains s h :
  drained (txn (state_of (StmtCommit s h))) /\
  (forall e : error,
      outcome_of (StmtCommit s h) = Return (Some e) ->
      doNotCommit (txn (state_of (StmtCommit s h))) = Some e) /\
  (forall t : T,
      Transaction (txn s) = Some t ->
      outcome_of (StmtCommit s h)
      = Return (drain_failure (MemBuffer.entries (buf (txn s))) t)).
Proof.
  destruct (walk (MemBuffer.entries (buf (txn s))) (flush_entry 0) s h)
    as [[o s0] h0] eqn:Hwalk.
  destruct (StmtCommit_after_walk s h o s0 h0 Hwalk) as (s' & h' & Hrun & _ & Htxn).
  rewrite Hrun. unfold state_of, outcome_of. cbn [fst snd]. rewrite Htxn.
  split; [by repeat split|]. split.
  - by intros e ->.
  - intros t Ht.
    destruct (walk_flush_Some (MemBuffer.entries (buf (txn s))) s h t Ht)
      as (t' & evs & Hwalk' & _).
    congruence.
Qed.

(** ** Phase exclusivity *)

Lemma StmtCommit_phase s h :
  txnFuture (txn (state_of (StmtCommit s h))) = txnFuture (txn s) /\
  (Transaction (txn s) = None -> Transaction (txn (state_of (StmtCommit s h))) = None).
Proof.
  destruct (walk (MemBuffer.entries (buf (txn s))) (flush_entry 0) s h)
    as [[o s0] h0] eqn:Hwalk.
  destruct (StmtCommit_after_walk s h o s0 h0 Hwalk) as (s' & h' & Hrun & _ & Htxn).
  rewrite Hrun. unfold state_of. cbn [fst snd]. rewrite Htxn.
  destruct (Transaction (txn s)) as [t|] eqn:Ht.
  - destruct (walk_flush_Some (MemBuffer.entries (buf (txn s))) s h t Ht)
      as (t' & evs & Hwalk' & _).
    rewrite Hwalk' in Hwalk. injection Hwalk as <- <- <-.
    split; [|done]. by destruct (drain_failure _ t).
  - rewrite (walk_flush_None _ s h Ht) in Hwalk. injection Hwalk as <- <- <-.
    destruct (MemBuffer.entries (buf (txn s))); by rewrite ?Ht.
Qed.

Lemma Get_state st k h : state_of (Get k st h) = st.
Proof.
  unfold Get. run.
  destruct (IsErrNotFound (snd (MemBuffer.Get (buf st) k))).
  - unfold Transaction_Get. run. destruct (Transaction st) as [t|]; run; [|done].
    destruct (IsErrNotFound (snd (txn_Get t k))); run; [done|].
    unfold Get_checked. destruct (snd (txn_Get t k)); [done|].
    by destruct (len _ =? 0)%Z.
  - unfold Get_checked. destruct (snd (MemBuffer.Get (buf st) k)); [done|].
    by destruct (len _ =? 0)%Z.
Qed.

Lemma changePendingToValid_future (txnCap : Z) st h :
  txnFuture (state_of (changePendingToValid txnCap st h)) = None.
Proof.
  unfold changePendingToValid. run.
  destruct (txnFuture st) as [f|] eqn:Hf; run; [|done].
  destruct (wait_run f) as (r & evs & _ & Hrun). rewrite Hrun.
  destruct r as [[txn|] [e|]]; cbn [fst snd]; by run.
Qed.

(* No method of this file sets a transaction and a future at once. *)
Lemma transition_exclusive st st' :
  transition (Ctx := Ctx) st st' ->
  Transaction st = None \/ txnFuture st = None ->
  Transaction st' = None \/ txnFuture st' = None.
Proof.
  intros Htr Hex. inversion Htr; subst; clear Htr.
  - by right.
  - by left.
  - right. apply changePendingToValid_future.
  - by left.
  - left. by rewrite Commit_state.
  - left. by rewrite Rollback_state.
  - by rewrite Get_state.
  - done.
  - done.
  - destruct (StmtCommit_phase s h) as [Hfu Htr]. rewrite Hfu.
    destruct Hex as [Hex|Hex]; [left; by apply Htr | by right].
  - unfold StmtRollback, on_txn. rewrite cleanup_run. done.
Qed.

Lemma reachable_exclusive st :
  reachable (Ctx := Ctx) st -> Transaction st = None \/ txnFuture st = None.
Proof.
  induction 1 as [|st st' _ IH Htr]; [by left|].
  by apply (transition_exclusive st st').
Qed.

(** C6.  In every state reached from the initial one by the methods of this
    file (the phase changes, Commit and Rollback, and the reads, writes and
    statement boundaries between them) exactly one of the three phases
    holds; a transaction and a future are never held together. *)
Theorem phase_exclusivity st :
  reachable (Ctx := Ctx) st ->
  ((phase_Invalid st /\ ~ phase_Pending st /\ ~ phase_Valid st) \/
   (~ phase_Invalid st /\ phase_Pending st /\ ~ phase_Valid st) \/
   (~ phase_Invalid st /\ ~ phase_Pending st /\ phase_Valid st)) /\
  ~ (Transaction st <> None /\ txnFuture st <> None).
Proof.
  intros Hreach. apply reachable_exclusive in Hreach.
  unfold phase_Invalid, phase_Pending, phase_Valid.
  destruct (Transaction st) as [t|], (txnFuture st) as [f|];
    destruct Hreach as [?|?]; try discriminate;
    (split; [|intros [? ?]; congruence]);
    first
      [ left; solve [repeat split; first [congruence | intros [? ?]; congruence]]
      | right; left; solve [repeat split; first [congruence | intros [? ?]; congruence]]
      | right; right; solve [repeat split; first [congruence | intros [? ?]; congruence]] ].
Qed.

End Properties.

(** ** Mutation merge *)

(** C9.  [mergeToMutation] appends each of the five row-delta fields of
    its second argument to the same field of the first, in arrival order
    and without dropping or reordering any element.  Merging [a; b] and
    then [c] into the mutation of the same table leaves the inserted rows
    [a; b; c]. *)
Theorem mergeToMutation_appends :
  (forall m1 m2 : TableMutation,
      InsertedRows (mergeToMutation m1 m2) = InsertedRows m1 ++ InsertedRows m2 /\
      UpdatedRows (mergeToMutation m1 m2) = UpdatedRows m1 ++ UpdatedRows m2 /\
      DeletedIds (mergeToMutation m1 m2) = DeletedIds m1 ++ DeletedIds m2 /\
      DeletedPks (mergeToMutation m1 m2) = DeletedPks m1 ++ DeletedPks m2 /\
      DeletedRows (mergeToMutation m1 m2) = DeletedRows m1 ++ DeletedRows m2 /\
      TableId (mergeToMutation m1 m2) = TableId m1) /\
  (forall (tableID : Z) (a b c : bytes) (m_ab m_c : TableMutation),
      InsertedRows m_ab = [a; b] ->
      InsertedRows m_c = [c] ->
      InsertedRows
        (mergeToMutation (mergeToMutation (TableMutation_of tableID) m_ab) m_c)
      = [a; b; c]).
Proof.
  split.
  - intros m1 m2. by repeat split.
  - intros tableID a b c m_ab m_c Hab Hc. simpl. by rewrite Hab, Hc.
Qed.

(** * The properties at work on the scripted transaction *)

Lemma StmtCommit_fault_poisons_Commit_witness :
  Transaction (txn (mock_session broken_txn overlay_ab)) = Some broken_txn /\
  drain_failure (MemBuffer.entries (buf (txn (mock_session broken_txn overlay_ab))))
    broken_txn = Some (errors_New "write refused") /\
  exists s' evs (t' : MockTxn),
    StmtCommit (mock_session broken_txn overlay_ab) no_history
    = (Return (Some (errors_New "write refused")), s', no_history ++ evs) /\
    doNotCommit (txn s') = Some (errors_New "write refused") /\
    Transaction (txn s') = Some t' /\
    (exists st'',
        Commit tt (txn s') (no_history ++ evs)
        = (Return (Some (errors_New "write refused")), st'',
           (no_history ++ evs) ++ CallRollback :: logged (snd (txn_Rollback t'))) /\
        is_reset st'') /\
    ~ calls_Commit (evs ++ CallRollback :: logged (snd (txn_Rollback t'))).
Proof.
  split; [reflexivity|]. split; [reflexivity|].
  apply (StmtCommit_fault_poisons_Commit tt (mock_session broken_txn overlay_ab)
           no_history broken_txn (errors_New "write refused")); reflexivity.
Defined.

Lemma Commit_undrained_is_refused_witness :
  (MemBuffer.Len (buf (mock_state sound_txn overlay_ab)) <> 0%Z \/
   mutations (mock_state sound_txn overlay_ab) <> ∅ \/
   dirtyTableOP (mock_state sound_txn overlay_ab) <> []) /\
  exists st' evs,
    Commit tt (mock_state sound_txn overlay_ab) no_history
    = (Return (Some (errors_New "invalid transaction")), st', no_history ++ evs) /\
    evs = [LogErrorf "The code should never run here"] /\
    ~ calls_Commit evs /\
    is_reset st'.
Proof.
  assert (MemBuffer.Len (buf (mock_state sound_txn overlay_ab)) <> 0%Z) as Hlen
    by (vm_compute; discriminate).
  split; [by left|].
  apply (Commit_undrained_is_refused tt (mock_state sound_txn overlay_ab) no_history).
  by left.
Defined.

Lemma Commit_Rollback_always_reset_witness :
  is_reset (state_of (Commit tt (mock_state failing_commit_txn []) no_history)) /\
  is_reset (state_of (Rollback (mock_state failing_commit_txn []) no_history)) /\
  outcome_of (Commit tt (mock_state failing_commit_txn []) no_history)
  = Return (Some (errors_New "commit failed")).
Proof.
  pose proof (Commit_Rollback_always_reset tt (mock_state failing_commit_txn []) no_history)
    as (HC & HR & _ & _ & Herr & _).
  split; [exact HC|]. split; [exact HR|].
  apply (Herr failing_commit_txn); [reflexivity | by repeat split | reflexivity].
Defined.

Lemma Delete_then_Get_not_found_witness :
  txn_Get sound_txn "a" = ("0"%string, None) /\
  exists st1,
    Delete "a" (mock_state sound_txn []) no_history = (Return None, st1, no_history) /\
    Transaction st1 = Transaction (mock_state sound_txn []) /\
    Get "a" st1 no_history = (Return (nil_bytes, Some ErrNotExist), st1, no_history).
Proof.
  split; [reflexivity|].
  exact (proj1 (Delete_then_Get_not_found (mock_state sound_txn []) "a" no_history)).
Defined.

Lemma Set_then_Get_shadows_witness :
  "1"%string <> nil_bytes /\
  txn_Get sound_txn "a" = ("0"%string, None) /\
  exists st1,
    Set_ "a" "1" (mock_state sound_txn []) no_history = (Return None, st1, no_history) /\
    Transaction st1 = Transaction (mock_state sound_txn []) /\
    Get "a" st1 no_history = (Return ("1"%string, None), st1, no_history).
Proof.
  split; [discriminate|]. split; [reflexivity|].
  apply (Set_then_Get_shadows (mock_state sound_txn []) "a" "1" no_history).
  discriminate.
Defined.

(** C5, as stated, fails on an empty value: Set(k, v) with v empty
    succeeds, and the Get(k) that follows returns kv.ErrNotExist instead of
    v, because Get reads an empty value in the overlay as a tombstone. *)
Lemma Set_empty_then_Get_not_found :
  outcome_of (Set_ "a" nil_bytes (mock_state sound_txn []) no_history) = Return None /\
  outcome_of
    (Get "a"
       (state_of (Set_ "a" nil_bytes (mock_state sound_txn []) no_history))
       (history_of (Set_ "a" nil_bytes (mock_state sound_txn []) no_history)))
  = Return (nil_bytes, Some ErrNotExist) /\
  outcome_of
    (Get "a"
       (state_of (Set_ "a" nil_bytes (mock_state sound_txn []) no_history))
       (history_of (Set_ "a" nil_bytes (mock_state sound_txn []) no_history)))
  <> Return (nil_bytes, None).
Proof.
  split; [reflexivity|]. split; [reflexivity|]. discriminate.
Qed.

Lemma phase_exclusivity_witness :
  reachable (Ctx := unit) resolved_state /\
  phase_Valid resolved_state /\
  ~ (Transaction resolved_state <> None /\ txnFuture resolved_state <> None).
Proof.
  assert (reachable (Ctx := unit) resolved_state) as Hreach.
  { unfold resolved_state.
    eapply reach_step; [|apply tr_changePendingToValid].
    eapply reach_step; [|apply tr_changeInvalidToPending].
    apply reach_initial. }
  split; [exact Hreach|].
  pose proof (phase_exclusivity resolved_state Hreach) as [_ Hnever].
  split; [|exact Hnever].
  split; [discriminate | reflexivity].
Defined.

Lemma changePendingToValid_resolution_witness :
  txnFuture (state_of (changeInvalidToPending (Ctx := unit) (Some oracle_up) initial no_history))
  = Some oracle_up /\
  exists st',
    changePendingToValid 8
      (state_of (changeInvalidToPending (Some oracle_up) initial no_history)) no_history
    = (Return None, st',
       [CallFutureWait; CallBeginWithStartTS 42; CallSetCap 8]) /\
    Transaction st' = Some (txn_SetCap (mock_txn [] None None) 8) /\
    txnFuture st' = None /\
    phase_Valid st'.
Proof.
  split; [reflexivity|].
  exact (proj1 (proj2 (changePendingToValid_resolution 8
           (state_of (changeInvalidToPending (Some oracle_up) initial no_history))
           no_history))
         oracle_up (mock_txn [] None None) eq_refl eq_refl).
Defined.

Lemma wait_resolution_witness :
  mockFail oracle_down = false /\
  future_Wait (future oracle_down) = (0%Z, Some (errors_New "PD server timeout")) /\
  wait oracle_down tt no_history
  = (Return (store_Begin (store oracle_down)), tt, [CallFutureWait; CallBegin]).
Proof.
  split; [reflexivity|]. split; [reflexivity|].
  exact (proj2 (proj2 (wait_resolution oracle_down tt no_history))
         0%Z (errors_New "PD server timeout") eq_refl eq_refl).
Defined.

Lemma mergeToMutation_appends_witness :
  InsertedRows
    (mergeToMutation
       (mergeToMutation (TableMutation_of 7)
          (mkTableMutation 7 ["a"; "b"]%string [] [] [] [] []))
       (mkTableMutation 7 ["c"%string] [] [] [] [] []))
  = ["a"; "b"; "c"]%string.
Proof.
  exact (proj2 mergeToMutation_appends 7%Z "a"%string "b"%string "c"%string
           (mkTableMutation 7 ["a"; "b"]%string [] [] [] [] [])
           (mkTableMutation 7 ["c"%string] [] [] [] [] [])
           eq_refl eq_refl).
Defined.

Lemma StmtCommit_always_drains_witness :
  drained (txn (state_of (StmtCommit (mock_session broken_txn overlay_ab) no_history))) /\
  doNotCommit (txn (state_of (StmtCommit (mock_session broken_txn overlay_ab) no_history)))
  = Some (errors_New "write refused").
Proof.
  pose proof (StmtCommit_always_drains (mock_session broken_txn overlay_ab) no_history)
    as (Hdrained & Hfault & _).
  split; [exact Hdrained|].
  apply Hfault. reflexivity.
Defined.

(** ** The scenarios of the specification *)

Example commit_then_rollback_reads_first_write :
  outcome_of (scenario_commit_then_rollback (mock_session (mock_txn [] None None) []) no_history)
  = Return ("1"%string, None).
Proof. reflexivity. Qed.

Example rollback_discards_the_write :
  outcome_of (scenario_rollback_discards (mock_session (mock_txn [] None None) []) no_history)
  = Return (nil_bytes, Some ErrNotExist).
Proof. reflexivity. Qed.

(* Commit and Rollback on a state without a transaction panic, and still
   leave the state reset. *)
Example Commit_without_transaction_panics :
  Commit tt (@initial Z MockTxn) no_history = (Panic, initial, no_history) /\
  Rollback (@initial Z MockTxn) no_history = (Panic, initial, no_history).
Proof. split; reflexivity. Qed.

(** * Further properties of the code *)

(** ** mergeToMutation *)

(** X1.  mergeToMutation is associative: merging deltas one after the
    other into a mutation, or merging them with each other first, gives the
    same mutation.  The Sequence field is appended like the five row
    fields, and merging a mutation that holds nothing changes nothing. *)
Theorem mergeToMutation_assoc (m1 m2 m3 : TableMutation) (tableID : Z) :
  mergeToMutation (mergeToMutation m1 m2) m3
  = mergeToMutation m1 (mergeToMutation m2 m3) /\
  Sequence (mergeToMutation m1 m2) = Sequence m1 ++ Sequence m2 /\
  mergeToMutation m1 (TableMutation_of tableID) = m1.
Proof.
  split; [|split].
  - unfold mergeToMutation. cbn. by rewrite !app_assoc.
  - reflexivity.
  - destruct m1. unfold mergeToMutation. cbn. by rewrite !app_nil_r.
Qed.

(** ** getBinlogMutation *)

Lemma find_TableId_Some (ms : list TableMutation) (tableID : Z) (i : nat) :
  find_TableId ms tableID = Some i ->
  exists m, ms !! i = Some m /\ TableId m = tableID /\
    forall j m', (j < i)%nat -> ms !! j = Some m' -> TableId m' <> tableID.
Proof.
  revert i. induction ms as [|m0 ms IH]; intros i; simpl; [done|].
  destruct (TableId m0 =? tableID)%Z eqn:Hid.
  - intros [= <-]. exists m0. split; [done|]. split; [by apply Z.eqb_eq|].
    intros j m' Hj. lia.
  - destruct (find_TableId ms tableID) as [i'|] eqn:Hfind; simpl; [|done].
    intros [= <-]. destruct (IH i' eq_refl) as (m & Hm & Hm_id & Hfirst).
    exists m. split; [done|]. split; [done|].
    intros [|j] m' Hj; simpl.
    + intros [= <-]. by apply Z.eqb_neq.
    + apply Hfirst. lia.
Qed.

Lemma find_TableId_None (ms : list TableMutation) (tableID : Z) :
  find_TableId ms tableID = None ->
  forall m, m ∈ ms -> TableId m <> tableID.
Proof.
  induction ms as [|m0 ms IH]; simpl; intros Hfind m Hm.
  - by apply elem_of_nil in Hm.
  - destruct (TableId m0 =? tableID)%Z eqn:Hid; [done|].
    destruct (find_TableId ms tableID) eqn:Hfind'; [done|].
    apply elem_of_cons in Hm as [->|Hm]; [by apply Z.eqb_neq | by apply IH].
Qed.

Lemma find_TableId_fresh (ms : list TableMutation) (tableID : Z) :
  find_TableId ms tableID = None ->
  find_TableId (ms ++ [TableMutation_of tableID]) tableID = Some (length ms).
Proof.
  induction ms as [|m0 ms IH]; simpl; intros Hfind.
  - by rewrite Z.eqb_refl.
  - destruct (TableId m0 =? tableID)%Z; [done|].
    destruct (find_TableId ms tableID) eqn:Hfind'; [done|].
    by rewrite IH.
Qed.

Lemma lookup_table_find (ms : list TableMutation) (tableID : Z) :
  lookup_table ms tableID = (find_TableId ms tableID) ≫= (fun i => ms !! i).
Proof.
  induction ms as [|m0 ms IH]; simpl; [done|].
  destruct (TableId m0 =? tableID)%Z; [done|].
  rewrite IH. by destruct (find_TableId ms tableID).
Qed.

(** ** The binlog loop of StmtCommit *)

Lemma binlog_merge_cons (m : TableMutation) (ms : list TableMutation)
    (entry : Z * TableMutation) :
  binlog_merge (m :: ms) entry
  = if (TableId m =? fst entry)%Z then mergeToMutation m (snd entry) :: ms
    else m :: binlog_merge ms entry.
Proof.
  unfold binlog_merge. simpl.
  destruct (TableId m =? fst entry)%Z; [done|].
  by destruct (find_TableId ms (fst entry)).
Qed.

Lemma lookup_table_binlog_merge_eq (ms : list TableMutation) (tableID : Z)
    (delta : TableMutation) :
  lookup_table (binlog_merge ms (tableID, delta)) tableID
  = Some (mergeToMutation
            (default (TableMutation_of tableID) (lookup_table ms tableID)) delta).
Proof.
  induction ms as [|m ms IH].
  - unfold binlog_merge. simpl. by rewrite Z.eqb_refl.
  - rewrite binlog_merge_cons. cbn [fst snd lookup_table].
    destruct (TableId m =? tableID)%Z eqn:Hid; cbn [lookup_table mergeToMutation TableId].
    + by rewrite Hid.
    + by rewrite Hid.
Qed.

Lemma lookup_table_binlog_merge_ne (ms : list TableMutation) (tableID tableID' : Z)
    (delta : TableMutation) :
  tableID' <> tableID ->
  lookup_table (binlog_merge ms (tableID, delta)) tableID' = lookup_table ms tableID'.
Proof.
  intros Hne. induction ms as [|m ms IH].
  - unfold binlog_merge. simpl.
    by destruct (Z.eqb_spec tableID tableID').
  - rewrite binlog_merge_cons. cbn [fst snd lookup_table].
    destruct (Z.eqb_spec (TableId m) tableID) as [Hid|Hid];
      cbn [lookup_table mergeToMutation TableId].
    + destruct (Z.eqb_spec (TableId m) tableID'); [congruence | done].
    + by rewrite IH.
Qed.

Lemma lookup_table_foldl_binlog_merge (l : list (Z * TableMutation)) :
  NoDup l.*1 ->
  forall (ms : list TableMutation) (tableID : Z),
    lookup_table (foldl binlog_merge ms l) tableID
    = match (list_to_map l : gmap Z TableMutation) !! tableID with
      | Some delta =>
          Some (mergeToMutation
                  (default (TableMutation_of tableID) (lookup_table ms tableID)) delta)
      | None => lookup_table ms tableID
      end.
Proof.
  induction l as [|[t0 d0] l IH]; intros Hnodup ms tableID; [done|].
  apply NoDup_cons in Hnodup as [Hfresh Hnodup]. cbn [foldl list_to_map foldr].
  rewrite (IH Hnodup).
  destruct (decide (tableID = t0)) as [->|Hne].
  - rewrite lookup_insert_eq.
    rewrite (not_elem_of_list_to_map_1 l t0 Hfresh).
    apply lookup_table_binlog_merge_eq.
  - rewrite lookup_insert_ne by done.
    by rewrite lookup_table_binlog_merge_ne.
Qed.

Lemma TableIds_binlog_merge (ms : list TableMutation) (entry : Z * TableMutation) :
  TableId <$> binlog_merge ms entry
  = match lookup_table ms (fst entry) with
    | Some _ => TableId <$> ms
    | None => (TableId <$> ms) ++ [fst entry]
    end.
Proof.
  induction ms as [|m ms IH].
  - reflexivity.
  - rewrite binlog_merge_cons. cbn [lookup_table].
    destruct (TableId m =? fst entry)%Z; [done|].
    rewrite fmap_cons, IH. by destruct (lookup_table ms (fst entry)).
Qed.

Lemma lookup_table_None (ms : list TableMutation) (tableID : Z) :
  lookup_table ms tableID = None -> tableID ∉ TableId <$> ms.
Proof.
  induction ms as [|m ms IH]; simpl; intros Hnone Hin.
  - by apply elem_of_nil in Hin.
  - destruct (Z.eqb_spec (TableId m) tableID) as [Hid|Hid]; [done|].
    apply elem_of_cons in Hin as [Hin|Hin]; [congruence | by apply IH].
Qed.

Lemma NoDup_binlog_merge (ms : list TableMutation) (entry : Z * TableMutation) :
  NoDup (TableId <$> ms) -> NoDup (TableId <$> binlog_merge ms entry).
Proof.
  intros Hnodup. rewrite TableIds_binlog_merge.
  destruct (lookup_table ms (fst entry)) eqn:Hlook; [done|].
  apply NoDup_app. split; [done|]. split; [|apply NoDup_singleton].
  intros x Hx ->%list_elem_of_singleton.
  by apply (lookup_table_None ms (fst entry)).
Qed.

Lemma NoDup_foldl_binlog_merge (l : list (Z * TableMutation)) (ms : list TableMutation) :
  NoDup (TableId <$> ms) -> NoDup (TableId <$> foldl binlog_merge ms l).
Proof.
  revert ms. induction l as [|e l IH]; intros ms Hnodup; [done|].
  cbn [foldl]. by apply IH, NoDup_binlog_merge.
Qed.

Lemma lookup_put_ne (b : MemBuffer.t) (k k' : Key) (v : bytes) :
  k' <> k -> MemBuffer.lookup (MemBuffer.put k v b) k' = MemBuffer.lookup b k'.
Proof.
  intros Hne.
  assert (String.eqb k' k = false) as Hkk by by apply String.eqb_neq.
  induction b as [|[k0 v0] b IH]; simpl.
  - by rewrite Hkk.
  - destruct (String.compare k k0) eqn:Hc; simpl.
    + apply String.compare_eq_iff in Hc as <-. by rewrite Hkk.
    + by rewrite Hkk.
    + by rewrite IH.
Qed.

Section Further.

Context {Ctx Datum T : Type} {KVT : KVTransaction Ctx T} {DTK : DirtyTableKinds}.

Implicit Types (st : TxnState Datum T) (s : session Datum T).
Implicit Types (h : list (Event Ctx Datum)) (k : Key) (v : bytes).

(** X2.  getBinlogMutation is a lookup-or-insert on the session's binlog
    mutations.  It always returns, without any call on a collaborator and
    without touching s.txn; the index it returns holds a mutation of the
    wanted table, and no earlier entry is of that table.  The list is left
    as it was when the table had an entry, and is extended by one empty
    mutation of that table otherwise.  Asking again returns the same index
    and changes nothing. *)
Theorem getBinlogMutation_finds_or_appends (tableID : Z) s h :
  exists (i : nat) (m : TableMutation) s',
    getBinlogMutation tableID s h = (Return i, s', h) /\
    txn s' = txn s /\
    bin_Mutations s' !! i = Some m /\
    TableId m = tableID /\
    (forall j m', (j < i)%nat -> bin_Mutations s' !! j = Some m' -> TableId m' <> tableID) /\
    match lookup_table (bin_Mutations s) tableID with
    | Some m0 => m = m0 /\ bin_Mutations s' = bin_Mutations s
    | None => m = TableMutation_of tableID /\
              bin_Mutations s' = bin_Mutations s ++ [TableMutation_of tableID]
    end /\
    getBinlogMutation tableID s' h = (Return i, s', h).
Proof.
  destruct s as [st ms]. unfold getBinlogMutation. run. cbn [bin_Mutations].
  rewrite lookup_table_find.
  destruct (find_TableId ms tableID) as [i|] eqn:Hfind.
  - destruct (find_TableId_Some ms tableID i Hfind) as (m & Hm & Hid & Hfirst).
    exists i, m, {| txn := st; bin_Mutations := ms |}.
    cbn [bin_Mutations txn mbind option_bind]. rewrite Hfind, Hm.
    by repeat split.
  - pose proof (find_TableId_fresh ms tableID Hfind) as Hfresh.
    destruct (find_TableId_Some _ tableID _ Hfresh) as (m & Hm & Hid & Hfirst).
    exists (length ms), (TableMutation_of tableID),
      {| txn := st; bin_Mutations := ms ++ [TableMutation_of tableID] |}.
    run. cbn [bin_Mutations txn set_bin_Mutations mbind option_bind].
    rewrite Hfresh.
    assert ((ms ++ [TableMutation_of tableID]) !! length ms = Some (TableMutation_of tableID))
      as Hlast by (by rewrite lookup_app_r, Nat.sub_diag).
    by repeat split.
Qed.

(** ** StmtCommit, step by step *)

Local Abbreviation cleaned x := (set_dirtyTableOP [] (set_mutations ∅ (set_buf [] x))).

(* The binlog loop: one binlog_merge per table of st.mutations. *)
Lemma binlog_loop_run (l : list (Z * TableMutation)) :
  forall st (ms : list TableMutation) h,
    forM_ l (fun entry =>
      bind (getBinlogMutation (fst entry)) (fun mutation =>
        modify (fun s : session Datum T =>
          set_bin_Mutations
            (alter (fun m1 => mergeToMutation m1 (snd entry)) mutation (bin_Mutations s))
            s))) {| txn := st; bin_Mutations := ms |} h
    = (Return tt, {| txn := st; bin_Mutations := foldl binlog_merge ms l |}, h).
Proof.
  induction l as [|entry l IH]; intros st ms h; [done|].
  cbn [forM_ foldl]. unfold bind at 1. unfold getBinlogMutation, binlog_merge.
  run. cbn [bin_Mutations].
  destruct (find_TableId ms (fst entry)) as [i|]; run;
    cbn [set_bin_Mutations bin_Mutations txn]; apply IH.
Qed.

(* The dirty-table loop: one call per staged operation of a known kind. *)
Lemma dirty_loop_run (ops : list (dirtyTableOperation Datum)) :
  forall s h,
    forM_ ops mergeToDirtyDB s h = (Return tt, s, h ++ flat_map dirty_call ops).
Proof.
  induction ops as [|op ops IH]; intros s h.
  - cbn. by rewrite app_nil_r.
  - cbn [forM_ flat_map]. unfold bind.
    assert (mergeToDirtyDB op s h = (Return tt, s, h ++ dirty_call op)) as ->.
    { unfold mergeToDirtyDB, dirty_call.
      repeat (match goal with |- context [if ?b then _ else _] => destruct b end);
        run; by rewrite ?app_nil_r. }
    rewrite IH. by rewrite app_assoc.
Qed.

(* One step of the drain, in full. *)
Lemma flush_entry_exact k v st (ms : list TableMutation) h (t : T) :
  Transaction st = Some t ->
  flush_entry 0 k v {| txn := st; bin_Mutations := ms |} h
  = (Return (snd (if (len v =? 0)%Z then txn_Delete t k else txn_Set t k v)),
     {| txn := set_Transaction
                 (Some (fst (if (len v =? 0)%Z then txn_Delete t k else txn_Set t k v))) st;
        bin_Mutations := ms |},
     h ++ [write_call (k, v)]).
Proof.
  intros Ht. unfold flush_entry, write_call. cbn [Z.gtb Z.compare fst snd].
  destruct (len v =? 0)%Z;
    unfold on_txn, Transaction_Delete, Transaction_Set; run; cbn [txn];
    rewrite Ht; reflexivity.
Qed.

(* The drain on a session that has a transaction, in full. *)
Lemma walk_flush_exact (es : list (Key * bytes)) :
  forall st (ms : list TableMutation) h (t : T),
    Transaction st = Some t ->
    walk es (flush_entry 0) {| txn := st; bin_Mutations := ms |} h
    = (Return (drain_failure es t),
       {| txn := set_Transaction (Some (drain_result es t)) st; bin_Mutations := ms |},
       h ++ map write_call (drained_entries es t)).
Proof.
  induction es as [|[k v] es IH]; intros st ms h t Ht.
  - destruct st. cbn in Ht. subst. cbn. by rewrite app_nil_r.
  - cbn [walk drain_failure drain_result drained_entries map]. unfold bind at 1.
    rewrite (flush_entry_exact k v st ms h t Ht).
    destruct (snd (if (len v =? 0)%Z then txn_Delete t k else txn_Set t k v))
      as [e|] eqn:Herr.
    + reflexivity.
    + rewrite (IH _ ms _ (fst (if (len v =? 0)%Z then txn_Delete t k else txn_Set t k v)));
        [|reflexivity].
      cbn. by rewrite <- app_assoc.
Qed.

Lemma drained_entries_all (es : list (Key * bytes)) (t : T) :
  drain_failure es t = None -> drained_entries es t = es.
Proof.
  revert t. induction es as [|[k v] es IH]; intros t; [done|].
  cbn [drain_failure drained_entries].
  destruct (snd (if (len v =? 0)%Z then txn_Delete t k else txn_Set t k v)); [done|].
  intros Hnone. by rewrite IH.
Qed.

(* StmtCommit, given how its drain ends. *)
Lemma StmtCommit_exact st ms h (o : outcome (option error)) st0 ms0 h0 :
  walk (MemBuffer.entries (buf st)) (flush_entry 0) {| txn := st; bin_Mutations := ms |} h
  = (o, {| txn := st0; bin_Mutations := ms0 |}, h0) ->
  StmtCommit {| txn := st; bin_Mutations := ms |} h
  = match o with
    | Return None =>
        (Return None,
         {| txn := cleaned st0;
            bin_Mutations := foldl binlog_merge ms0 (map_to_list (mutations st0)) |},
         h0 ++ flat_map dirty_call (dirtyTableOP st0))
    | Return (Some e) =>
        (Return (Some e),
         {| txn := cleaned (set_doNotCommit (Some e) st0); bin_Mutations := ms0 |}, h0)
    | Panic => (Panic, {| txn := cleaned st0; bin_Mutations := ms0 |}, h0)
    end.
Proof.
  intros Hwalk.
  unfold StmtCommit, defer, WalkMemBuffer. unfold bind at 1, get at 1.
  unfold bind at 1. cbn [txn]. rewrite Hwalk.
  destruct o as [[e|]|].
  - unfold on_txn. run. by rewrite cleanup_run.
  - unfold bind at 1, get at 1. unfold bind at 1. cbn [txn].
    rewrite binlog_loop_run.
    unfold bind at 1, get at 1. unfold bind at 1. cbn [txn].
    assert ((if (Z.of_nat (length (dirtyTableOP st0)) >? 0)%Z
             then forM_ (dirtyTableOP st0) mergeToDirtyDB
             else ret tt)
              {| txn := st0; bin_Mutations := foldl binlog_merge ms0 (map_to_list (mutations st0)) |} h0
            = (Return tt,
               {| txn := st0; bin_Mutations := foldl binlog_merge ms0 (map_to_list (mutations st0)) |},
               h0 ++ flat_map dirty_call (dirtyTableOP st0))) as ->.
    { destruct (Z.of_nat (length (dirtyTableOP st0)) >? 0)%Z eqn:Hlen.
      - apply dirty_loop_run.
      - destruct (dirtyTableOP st0); [cbn; by rewrite app_nil_r | by cbn in Hlen]. }
    unfold ret, on_txn. by rewrite cleanup_run.
  - unfold on_txn. by rewrite cleanup_run.
Qed.

Lemma drained_entries_prefix (es : list (Key * bytes)) (t : T) :
  drained_entries es t `prefix_of` es.
Proof.
  revert t. induction es as [|[k v] es IH]; intros t; [done|].
  cbn [drained_entries].
  destruct (snd (if (len v =? 0)%Z then txn_Delete t k else txn_Set t k v)).
  - apply prefix_cons, prefix_nil.
  - apply prefix_cons, IH.
Qed.

(* StmtCommit on a session that has a transaction. *)
Lemma StmtCommit_with_txn st (ms : list TableMutation) h (t : T) :
  Transaction st = Some t ->
  StmtCommit {| txn := st; bin_Mutations := ms |} h
  = match drain_failure (MemBuffer.entries (buf st)) t with
    | None =>
        (Return None,
         {| txn := cleaned (set_Transaction
                     (Some (drain_result (MemBuffer.entries (buf st)) t)) st);
            bin_Mutations := foldl binlog_merge ms (map_to_list (mutations st)) |},
         (h ++ map write_call (drained_entries (MemBuffer.entries (buf st)) t))
         ++ flat_map dirty_call (dirtyTableOP st))
    | Some e =>
        (Return (Some e),
         {| txn := cleaned (set_doNotCommit (Some e)
                     (set_Transaction
                        (Some (drain_result (MemBuffer.entries (buf st)) t)) st));
            bin_Mutations := ms |},
         h ++ map write_call (drained_entries (MemBuffer.entries (buf st)) t))
    end.
Proof.
  intros Ht.
  rewrite (StmtCommit_exact st ms h _ _ _ _
             (walk_flush_exact (MemBuffer.entries (buf st)) st ms h t Ht)).
  by destruct (drain_failure (MemBuffer.entries (buf st)) t).
Qed.

(* StmtCommit on a session without a transaction. *)
Lemma StmtCommit_without_txn st (ms : list TableMutation) h :
  Transaction st = None ->
  StmtCommit {| txn := st; bin_Mutations := ms |} h
  = match MemBuffer.entries (buf st) with
    | [] =>
        (Return None,
         {| txn := cleaned st;
            bin_Mutations := foldl binlog_merge ms (map_to_list (mutations st)) |},
         h ++ flat_map dirty_call (dirtyTableOP st))
    | _ :: _ => (Panic, {| txn := cleaned st; bin_Mutations := ms |}, h)
    end.
Proof.
  intros Ht.
  rewrite (StmtCommit_exact st ms h _ st ms h
             (walk_flush_None (MemBuffer.entries (buf st))
                {| txn := st; bin_Mutations := ms |} h Ht)).
  by destruct (MemBuffer.entries (buf st)).
Qed.

(** X3.  When StmtCommit returns nil, every table of st.mutations has been
    merged into the session's binlog mutations: the entry
    getBinlogMutation finds for the table is its previous entry (an empty
    mutation of that table if it had none) with the statement's delta
    merged in, and the entries of all other tables are what they were. *)
Theorem StmtCommit_merges_binlog s h :
  outcome_of (StmtCommit s h) = Return None ->
  forall tableID : Z,
    lookup_table (bin_Mutations (state_of (StmtCommit s h))) tableID
    = match mutations (txn s) !! tableID with
      | Some delta =>
          Some (mergeToMutation
                  (default (TableMutation_of tableID)
                     (lookup_table (bin_Mutations s) tableID))
                  delta)
      | None => lookup_table (bin_Mutations s) tableID
      end.
Proof.
  destruct s as [st ms]. cbn [txn bin_Mutations]. intros Hout tableID.
  assert (bin_Mutations (state_of (StmtCommit {| txn := st; bin_Mutations := ms |} h))
          = foldl binlog_merge ms (map_to_list (mutations st))) as ->.
  { revert Hout. destruct (Transaction st) as [t|] eqn:Ht.
    - rewrite (StmtCommit_with_txn st ms h t Ht).
      by destruct (drain_failure (MemBuffer.entries (buf st)) t).
    - rewrite (StmtCommit_without_txn st ms h Ht).
      by destruct (MemBuffer.entries (buf st)). }
  rewrite lookup_table_foldl_binlog_merge by apply NoDup_fst_map_to_list.
  by rewrite list_to_map_to_list.
Qed.

(** X4.  When no write of the drain fails, StmtCommit makes exactly these
    calls, in this order: for every overlay entry, in key order, one Delete
    (empty value) or one Set on the underlying transaction; then, for every
    staged dirty-table operation, in staging order, its call on the dirty
    table.  The underlying transaction is left as those writes leave it,
    and StmtCommit returns nil. *)
Theorem StmtCommit_flushes_in_order s h (t : T) :
  Transaction (txn s) = Some t ->
  drain_failure (MemBuffer.entries (buf (txn s))) t = None ->
  StmtCommit s h
  = (Return None, state_of (StmtCommit s h),
     h ++ map write_call (MemBuffer.entries (buf (txn s)))
       ++ flat_map dirty_call (dirtyTableOP (txn s))) /\
  Transaction (txn (state_of (StmtCommit s h)))
  = Some (drain_result (MemBuffer.entries (buf (txn s))) t).
Proof.
  destruct s as [st ms]. cbn [txn bin_Mutations]. intros Ht Hok.
  rewrite (StmtCommit_with_txn st ms h t Ht), Hok.
  rewrite (drained_entries_all _ t Hok).
  split; [|done]. unfold state_of. cbn [fst snd]. by rewrite <- app_assoc.
Qed.

(** X5.  When StmtCommit does not return nil (a write of the drain failed,
    or it panicked), no staged side effect is applied: the session's binlog
    mutations are unchanged, and the only calls made are the writes of a
    prefix of the overlay entries.  With a transaction in place that prefix
    ends with the write that failed, and the writes before it stay applied
    to the underlying transaction. *)
Theorem StmtCommit_failure_applies_no_side_effect s h :
  outcome_of (StmtCommit s h) <> Return None ->
  bin_Mutations (state_of (StmtCommit s h)) = bin_Mutations s /\
  (exists es',
      es' `prefix_of` MemBuffer.entries (buf (txn s)) /\
      history_of (StmtCommit s h) = h ++ map write_call es' /\
      forall t : T,
        Transaction (txn s) = Some t ->
        es' = drained_entries (MemBuffer.entries (buf (txn s))) t /\
        Transaction (txn (state_of (StmtCommit s h)))
        = Some (drain_result (MemBuffer.entries (buf (txn s))) t)).
Proof.
  destruct s as [st ms]. cbn [txn bin_Mutations].
  destruct (Transaction st) as [t|] eqn:Ht.
  - rewrite (StmtCommit_with_txn st ms h t Ht).
    destruct (drain_failure (MemBuffer.entries (buf st)) t) as [e|]; [|done].
    intros _. split; [done|].
    exists (drained_entries (MemBuffer.entries (buf st)) t).
    split; [apply drained_entries_prefix|]. split; [done|].
    by intros t' [= <-].
  - rewrite (StmtCommit_without_txn st ms h Ht).
    destruct (MemBuffer.entries (buf st)) as [|entry es]; [done|].
    intros _. split; [done|].
    exists []. split; [apply prefix_nil|]. split; [by rewrite app_nil_r | done].
Qed.

(** X6.  StmtCommit keeps the session's binlog mutations free of
    duplicates: if no two entries are of the same table before, no two are
    after, however StmtCommit ends. *)
Theorem StmtCommit_keeps_tables_distinct s h :
  NoDup (TableId <$> bin_Mutations s) ->
  NoDup (TableId <$> bin_Mutations (state_of (StmtCommit s h))).
Proof.
  destruct s as [st ms]. cbn [txn bin_Mutations]. intros Hnodup.
  destruct (Transaction st) as [t|] eqn:Ht.
  - rewrite (StmtCommit_with_txn st ms h t Ht).
    destruct (drain_failure (MemBuffer.entries (buf st)) t); [done|].
    by apply NoDup_foldl_binlog_merge.
  - rewrite (StmtCommit_without_txn st ms h Ht).
    destruct (MemBuffer.entries (buf st)); [|done].
    by apply NoDup_foldl_binlog_merge.
Qed.

Lemma drained_cleaned st : drained st -> cleaned st = st.
Proof.
  intros (Hb & Hm & Hd). destruct st as [tr fu bu mu di dn]. cbn in *.
  subst. destruct bu; [done|]. cbn in Hb. unfold MemBuffer.Len in Hb.
  cbn in Hb. lia.
Qed.

(** X7.  StmtCommit on a state whose overlay, ledger and dirty-operation
    log are empty does nothing: it returns nil, makes no call (also with no
    transaction in place) and leaves the session as it is.  So a second
    StmtCommit right after a first one, however the first ended, repeats no
    write and no side effect. *)
Theorem StmtCommit_twice s h :
  (drained (txn s) -> StmtCommit s h = (Return None, s, h)) /\
  StmtCommit (state_of (StmtCommit s h)) (history_of (StmtCommit s h))
  = (Return None, state_of (StmtCommit s h), history_of (StmtCommit s h)).
Proof.
  assert (forall s' h', drained (txn s') -> StmtCommit s' h' = (Return None, s', h'))
    as Hnoop.
  { intros [st ms] h' Hd. cbn [txn] in Hd.
    pose proof (drained_cleaned st Hd) as Hclean.
    destruct Hd as (Hb & Hm & Hd).
    assert (MemBuffer.entries (buf st) = []) as Hes.
    { unfold MemBuffer.entries, MemBuffer.Len in *. destruct (buf st); [done|].
      cbn in Hb. lia. }
    rewrite (StmtCommit_exact st ms h' (Return None) st ms h').
    - rewrite Hm, Hd, map_to_list_empty. cbn. by rewrite Hclean, app_nil_r.
    - by rewrite Hes. }
  split; [apply Hnoop|].
  apply Hnoop.
  destruct (walk (MemBuffer.entries (buf (txn s))) (flush_entry 0) s h)
    as [[o s0] h0] eqn:Hwalk.
  destruct (StmtCommit_after_walk s h o s0 h0 Hwalk) as (s' & h' & Hrun & _ & Htxn).
  rewrite Hrun. unfold state_of. cbn [fst snd]. rewrite Htxn. by repeat split.
Qed.

(** ** StmtRollback *)

(** X8.  StmtRollback only empties the overlay, the ledger and the
    dirty-operation log: it always returns, makes no call on any
    collaborator, and leaves the underlying transaction, the future, the
    fault marker and the session's binlog mutations as they are.  Whatever
    a statement wrote or staged before it is discarded: rolling back after
    a Set, a Delete, a StmtGetMutation or a StmtAddDirtyTableOP leaves
    exactly the state that rolling back without it leaves. *)
Theorem StmtRollback_discards s h :
  (exists s',
      StmtRollback s h = (Return tt, s', h) /\
      drained (txn s') /\
      Transaction (txn s') = Transaction (txn s) /\
      txnFuture (txn s') = txnFuture (txn s) /\
      doNotCommit (txn s') = doNotCommit (txn s) /\
      bin_Mutations s' = bin_Mutations s) /\
  (forall k v,
      state_of (StmtRollback (state_of (on_txn (Set_ k v) s h)) h)
      = state_of (StmtRollback s h)) /\
  (forall k,
      state_of (StmtRollback (state_of (on_txn (Delete k) s h)) h)
      = state_of (StmtRollback s h)) /\
  (forall tableID : Z,
      state_of (StmtRollback (state_of (StmtGetMutation tableID s h)) h)
      = state_of (StmtRollback s h)) /\
  (forall (op tid handle : Z) (row : list Datum),
      state_of (StmtRollback (state_of (StmtAddDirtyTableOP op tid handle row s h)) h)
      = state_of (StmtRollback s h)).
Proof.
  unfold StmtRollback, on_txn. split; [|split; [|split; [|split]]].
  - rewrite cleanup_run. eexists. split; [reflexivity|]. by repeat split.
  - intros k v. by rewrite !cleanup_run.
  - intros k. by rewrite !cleanup_run.
  - intros tableID. unfold StmtGetMutation, on_txn. run.
    destruct (mutations (txn s) !! tableID); run; by rewrite !cleanup_run.
  - intros op tid handle row. unfold StmtAddDirtyTableOP, on_txn. run.
    by rewrite !cleanup_run.
Qed.

(** ** Get past the overlay *)

(* Get depends on the overlay only through the binding of the key, and on
   the rest of the state only through the underlying transaction. *)
Lemma Get_depends st st' k h :
  MemBuffer.lookup (buf st') k = MemBuffer.lookup (buf st) k ->
  Transaction st' = Transaction st ->
  outcome_of (Get k st' h) = outcome_of (Get k st h) /\
  history_of (Get k st' h) = history_of (Get k st h).
Proof.
  intros Hb Ht. unfold Get. run. unfold MemBuffer.Get. rewrite Hb.
  destruct (MemBuffer.lookup (buf st) k) as [v0|]; cbn [fst snd IsErrNotFound].
  - unfold Get_checked. by destruct (len v0 =? 0)%Z.
  - unfold Transaction_Get. run. rewrite Ht.
    destruct (Transaction st) as [t|]; run; [|done].
    destruct (IsErrNotFound (snd (txn_Get t k))); run; [done|].
    unfold Get_checked. destruct (snd (txn_Get t k)); [done|].
    by destruct (len _ =? 0)%Z.
Qed.

(** X9.  Get of a key the overlay does not hold goes to the underlying
    transaction with exactly one Get call and leaves the state alone: an
    error of the underlying Get is returned with no value, a value that is
    not empty is returned as it is, and an empty value is reported as
    kv.ErrNotExist.  With no transaction in place such a Get panics. *)
Theorem Get_overlay_miss st k h :
  MemBuffer.lookup (buf st) k = None ->
  (Transaction st = None -> Get k st h = (Panic, st, h)) /\
  (forall (t : T) (val : bytes) (e : error),
      Transaction st = Some t -> txn_Get t k = (val, Some e) ->
      Get k st h = (Return (nil_bytes, Some e), st, h ++ [CallGet k])) /\
  (forall (t : T) (val : bytes),
      Transaction st = Some t -> txn_Get t k = (val, None) -> val <> nil_bytes ->
      Get k st h = (Return (val, None), st, h ++ [CallGet k])) /\
  (forall t : T,
      Transaction st = Some t -> txn_Get t k = (nil_bytes, None) ->
      Get k st h = (Return (nil_bytes, Some ErrNotExist), st, h ++ [CallGet k])).
Proof.
  intros Hmiss.
  assert (forall t, Transaction st = Some t ->
    Get k st h
    = (if IsErrNotFound (snd (txn_Get t k)) then ret (nil_bytes, snd (txn_Get t k))
       else Get_checked (Ctx := Ctx) (fst (txn_Get t k)) (snd (txn_Get t k)))
        st (h ++ [CallGet k])) as Hget.
  { intros t Ht. unfold Get. run. unfold MemBuffer.Get. rewrite Hmiss.
    cbn [fst snd IsErrNotFound]. unfold Transaction_Get. run. rewrite Ht. by run. }
  split; [|split; [|split]].
  - intros Ht. unfold Get. run. unfold MemBuffer.Get. rewrite Hmiss.
    cbn [fst snd IsErrNotFound]. unfold Transaction_Get. run. by rewrite Ht.
  - intros t val e Ht Hval. rewrite (Hget t Ht), Hval. cbn [fst snd].
    by destruct e.
  - intros t val Ht Hval Hne. rewrite (Hget t Ht), Hval.
    cbn [fst snd IsErrNotFound]. unfold Get_checked.
    destruct (len val =? 0)%Z eqn:Hlen; [|done].
    apply len_zero_iff in Hlen. congruence.
  - intros t Ht Hval. by rewrite (Hget t Ht), Hval.
Qed.

(** X10.  Set and Delete write to the overlay and nowhere else: they
    always return nil, in every phase, make no call on a collaborator, and
    leave the underlying transaction, the future, the ledger, the
    dirty-operation log and the fault marker as they are.  A Get of any
    other key answers after the write what it answered before. *)
Theorem writes_stay_in_overlay st k v h :
  (exists st1,
      Set_ k v st h = (Return None, st1, h) /\
      Transaction st1 = Transaction st /\ txnFuture st1 = txnFuture st /\
      mutations st1 = mutations st /\ dirtyTableOP st1 = dirtyTableOP st /\
      doNotCommit st1 = doNotCommit st /\
      forall k' h', k' <> k ->
        outcome_of (Get k' st1 h') = outcome_of (Get k' st h') /\
        history_of (Get k' st1 h') = history_of (Get k' st h')) /\
  (exists st1,
      Delete k st h = (Return None, st1, h) /\
      Transaction st1 = Transaction st /\ txnFuture st1 = txnFuture st /\
      mutations st1 = mutations st /\ dirtyTableOP st1 = dirtyTableOP st /\
      doNotCommit st1 = doNotCommit st /\
      forall k' h', k' <> k ->
        outcome_of (Get k' st1 h') = outcome_of (Get k' st h') /\
        history_of (Get k' st1 h') = history_of (Get k' st h')).
Proof.
  split.
  - exists (set_buf (MemBuffer.put k v (buf st)) st).
    repeat (split; [done|]).
    intros k' h' Hne. apply Get_depends; [|done]. by apply lookup_put_ne.
  - exists (set_buf (MemBuffer.put k nil_bytes (buf st)) st).
    repeat (split; [done|]).
    intros k' h' Hne. apply Get_depends; [|done]. by apply lookup_put_ne.
Qed.

(** ** Commit and the underlying transaction *)

(* Commit without a transaction on a drained state: the nil interface is
   called and the deferred reset still runs. *)
Lemma Commit_drained_no_txn (ctx : Ctx) st h :
  drained st -> Transaction st = None -> Commit ctx st h = (Panic, initial, h).
Proof.
  intros Hd Ht. unfold Commit, defer. run. rewrite (drained_test st Hd).
  destruct (doNotCommit st);
    unfold Transaction_Rollback, Transaction_Commit; run; rewrite Ht; run;
    by rewrite reset_run.
Qed.

Lemma Commit_undrained (ctx : Ctx) st h :
  ~ drained st ->
  Commit ctx st h
  = (Return (Some (errors_New "invalid transaction")), initial,
     h ++ [LogErrorf "The code should never run here"]).
Proof.
  intros Hnd. unfold Commit, defer. run.
  destruct (negb (Z.of_nat (size (mutations st)) =? 0)%Z
            || negb (Z.of_nat (length (dirtyTableOP st)) =? 0)%Z
            || negb (MemBuffer.Len (buf st) =? 0)%Z) eqn:Htest.
  - run. by rewrite reset_run.
  - exfalso. by apply Hnd, test_false_drained.
Qed.

Lemma drained_dec st : drained st \/ ~ drained st.
Proof.
  destruct (negb (Z.of_nat (size (mutations st)) =? 0)%Z
            || negb (Z.of_nat (length (dirtyTableOP st)) =? 0)%Z
            || negb (MemBuffer.Len (buf st) =? 0)%Z) eqn:Htest.
  - right. intros Hd. by rewrite (drained_test st Hd) in Htest.
  - left. by apply test_false_drained.
Qed.

(** X12.  Commit asks the underlying transaction to commit exactly when
    the state is drained, carries no fault and has a transaction; it then
    makes that one call and no other.  Rollback never asks the underlying
    transaction to commit. *)
Theorem Commit_calls_underlying_iff (ctx : Ctx) st h :
  (exists evs,
      history_of (Commit ctx st h) = h ++ evs /\
      (calls_Commit evs <->
       drained st /\ doNotCommit st = None /\ Transaction st <> None) /\
      (calls_Commit evs -> evs = [CallCommit ctx])) /\
  (exists evs,
      history_of (Rollback st h) = h ++ evs /\ ~ calls_Commit evs).
Proof.
  split.
  - destruct (drained_dec st) as [Hd|Hnd].
    + destruct (Transaction st) as [t|] eqn:Ht.
      * destruct (doNotCommit st) as [e|] eqn:He.
        -- exists (CallRollback :: logged (snd (txn_Rollback t))).
           rewrite (Commit_with_fault ctx st h t e Hd He Ht).
           split; [done|].
           assert (~ calls_Commit (Ctx := Ctx) (Datum := Datum)
                     (CallRollback :: logged (snd (txn_Rollback t)))) as Hno
             by (apply not_calls_Commit_cons; [done | apply not_calls_Commit_logged]).
           split; [|done]. split; [done|]. by intros (_ & [=] & _).
        -- exists [CallCommit ctx].
           rewrite (Commit_clean ctx st h t Hd He Ht).
           split; [done|]. split; [|done]. split; [done|].
           intros _. exists ctx. by left.
      * exists []. rewrite (Commit_drained_no_txn ctx st h Hd Ht).
        split; [by rewrite app_nil_r|]. split.
        -- split; [intros Hc; by apply not_calls_Commit_nil in Hc | by intros (_ & _ & ?)].
        -- intros Hc. by apply not_calls_Commit_nil in Hc.
    + exists [LogErrorf "The code should never run here"].
      rewrite (Commit_undrained ctx st h Hnd). split; [done|].
      assert (~ calls_Commit (Ctx := Ctx) (Datum := Datum)
                [LogErrorf "The code should never run here"]) as Hno
        by (apply not_calls_Commit_cons; [done | apply not_calls_Commit_nil]).
      split; [|done]. split; [done | by intros (? & _)].
  - destruct (Transaction st) as [t|] eqn:Ht.
    + exists [CallRollback]. rewrite (Rollback_run st h t Ht). split; [done|].
      apply not_calls_Commit_cons; [done | apply not_calls_Commit_nil].
    + exists []. split; [|apply not_calls_Commit_nil].
      unfold Rollback, defer, Transaction_Rollback. run. rewrite Ht. run.
      rewrite reset_run. unfold history_of. cbn. by rewrite app_nil_r.
Qed.

(** X13.  With no transaction in place, Rollback panics, and so does a
    Commit on a drained state; the deferred reset still runs, so the state
    they leave is the reset one and no call reaches a collaborator.
    StmtCommit with a non-empty overlay and no transaction panics at the
    first entry: no call is made, the session's binlog mutations are
    unchanged, and the deferred cleanup discards the buffered writes. *)
Theorem no_transaction_panics (ctx : Ctx) s h :
  Transaction (txn s) = None ->
  (exists st', Rollback (txn s) h = (Panic, st', h) /\ is_reset st') /\
  (drained (txn s) ->
   exists st', Commit ctx (txn s) h = (Panic, st', h) /\ is_reset st') /\
  (MemBuffer.entries (buf (txn s)) <> [] ->
   exists s',
     StmtCommit s h = (Panic, s', h) /\
     drained (txn s') /\ bin_Mutations s' = bin_Mutations s).
Proof.
  intros Ht. split; [|split].
  - exists initial. split; [|apply initial_is_reset].
    unfold Rollback, defer, Transaction_Rollback. run. rewrite Ht. run.
    by rewrite reset_run.
  - intros Hd. exists initial. split; [|apply initial_is_reset].
    by apply Commit_drained_no_txn.
  - intros Hne. destruct s as [st ms]. cbn [txn bin_Mutations] in *.
    rewrite (StmtCommit_without_txn st ms h Ht).
    destruct (MemBuffer.entries (buf st)); [done|].
    eexists. split; [reflexivity|]. by repeat split.
Qed.

(** ** What a statement can and cannot change *)

(* No call made while a statement runs or at its boundary changes the
   future, drops or installs a transaction, or clears the fault marker. *)
Lemma statement_step_frame st st' :
  statement_step (Ctx := Ctx) st st' ->
  txnFuture st' = txnFuture st /\
  (Transaction st' = None <-> Transaction st = None) /\
  (is_Some (doNotCommit st) -> is_Some (doNotCommit st')).
Proof.
  intros Hstep. inversion Hstep as [k st0 h|k v st0 h|k st0 h|tableID s h|op tid handle row s h|s h|s h];
    subst; clear Hstep.
  - by rewrite Get_state.
  - done.
  - done.
  - unfold StmtGetMutation, on_txn. run.
    by destruct (mutations (txn s) !! tableID).
  - done.
  - destruct s as [st ms]. cbn [txn].
    destruct (Transaction st) as [t|] eqn:Ht.
    + rewrite (StmtCommit_with_txn st ms h t Ht).
      destruct (drain_failure (MemBuffer.entries (buf st)) t);
        unfold state_of; cbn; rewrite ?Ht; by repeat split.
    + rewrite (StmtCommit_without_txn st ms h Ht).
      destruct (MemBuffer.entries (buf st));
        unfold state_of; cbn; rewrite ?Ht; by repeat split.
  - unfold StmtRollback, on_txn. by rewrite cleanup_run.
Qed.

Lemma statement_steps_frame st st' :
  rtc (statement_step (Ctx := Ctx)) st st' ->
  txnFuture st' = txnFuture st /\
  (Transaction st' = None <-> Transaction st = None) /\
  (is_Some (doNotCommit st) -> is_Some (doNotCommit st')).
Proof.
  induction 1 as [st|st st1 st' Hstep _ IH]; [done|].
  destruct (statement_step_frame st st1 Hstep) as (Hfu & Htr & Hdn).
  destruct IH as (Hfu' & Htr' & Hdn').
  split; [congruence|]. split; [by rewrite Htr', Htr | auto].
Qed.

(** X11.  A fault recorded in doNotCommit stays through everything a
    session does before the transaction ends: reads, writes, staging of
    side effects, statement commits and statement rollbacks keep the marker
    set.  The Commit that follows then never asks the underlying
    transaction to commit and never returns nil. *)
Theorem fault_is_sticky (ctx : Ctx) st st' h :
  rtc (statement_step (Ctx := Ctx)) st st' ->
  is_Some (doNotCommit st) ->
  is_Some (doNotCommit st') /\
  outcome_of (Commit ctx st' h) <> Return None /\
  exists evs, history_of (Commit ctx st' h) = h ++ evs /\ ~ calls_Commit evs.
Proof.
  intros Hsteps Hfault.
  destruct (statement_steps_frame st st' Hsteps) as (_ & _ & Hkeep).
  specialize (Hkeep Hfault). split; [done|].
  destruct Hkeep as [e He].
  destruct (drained_dec st') as [Hd|Hnd].
  - destruct (Transaction st') as [t|] eqn:Ht.
    + rewrite (Commit_with_fault ctx st' h t e Hd He Ht). split; [done|].
      eexists. split; [reflexivity|].
      apply not_calls_Commit_cons; [done | apply not_calls_Commit_logged].
    + rewrite (Commit_drained_no_txn ctx st' h Hd Ht). split; [done|].
      exists []. split; [by rewrite app_nil_r | apply not_calls_Commit_nil].
  - rewrite (Commit_undrained ctx st' h Hnd). split; [done|].
    eexists. split; [reflexivity|].
    apply not_calls_Commit_cons; [done | apply not_calls_Commit_nil].
Qed.

(** X17.  Reads, writes, staging of side effects, StmtCommit and
    StmtRollback never change the phase: after any number of them the state
    is Invalid, Pending or Valid exactly as it was before, with the same
    future. *)
Theorem statement_steps_keep_phase st st' :
  rtc (statement_step (Ctx := Ctx)) st st' ->
  txnFuture st' = txnFuture st /\
  (phase_Invalid st' <-> phase_Invalid st) /\
  (phase_Pending st' <-> phase_Pending st) /\
  (phase_Valid st' <-> phase_Valid st).
Proof.
  intros Hsteps.
  destruct (statement_steps_frame st st' Hsteps) as (Hfu & Htr & _).
  unfold phase_Invalid, phase_Pending, phase_Valid. rewrite Hfu. tauto.
Qed.

(** ** The future is used once *)

(** X14.  changePendingToValid consumes the future: however a first call
    ends (resolved, failed, or with no future to begin with), a second call
    right after it finds no future, returns the error "transaction future
    is not set", makes no call and changes nothing. *)
Theorem changePendingToValid_one_shot (txnCap txnCap' : Z) st h h' :
  changePendingToValid txnCap' (state_of (changePendingToValid txnCap st h)) h'
  = (Return (Some (errors_New "transaction future is not set")),
     state_of (changePendingToValid txnCap st h), h').
Proof.
  pose proof (changePendingToValid_future txnCap st h) as Hfu.
  unfold changePendingToValid at 1. run. by rewrite Hfu.
Qed.

(** X15.  A future flagged to fail: once attached with
    changeInvalidToPending the state is pending, and changePendingToValid
    then returns the error "mock get timestamp fail" without calling the
    oracle or the store.  The state is left with neither transaction nor
    future, so Valid() is false, while the overlay, the ledger, the
    dirty-operation log and the fault marker are not reset. *)
Theorem failing_future_leaves_invalid (f : txnFutureT T) (txnCap : Z) st h :
  mockFail f = true ->
  pending (state_of (changeInvalidToPending (Ctx := Ctx) (Some f) st h)) = true /\
  exists st',
    changePendingToValid txnCap (state_of (changeInvalidToPending (Some f) st h)) h
    = (Return (Some (errors_New "mock get timestamp fail")), st', h) /\
    phase_Invalid st' /\ Valid st' = false /\ validOrPending st' = false /\
    buf st' = buf st /\ mutations st' = mutations st /\
    dirtyTableOP st' = dirtyTableOP st /\ doNotCommit st' = doNotCommit st.
Proof.
  intros Hfail. split; [done|].
  exists (set_Transaction None (set_txnFuture None st)).
  split; [|by repeat split].
  unfold changePendingToValid, changeInvalidToPending. run.
  unfold state_of. cbn [fst snd txnFuture set_txnFuture set_Transaction]. run.
  unfold wait. rewrite Hfail. by run.
Qed.

(** ** The phase queries *)

(** X16.  On every reachable state the three queries agree with the phase:
    pending() holds exactly in the Pending phase, Valid() holds only in the
    Valid phase, validOrPending() is false in the Invalid phase, and
    validOrPending() is pending() or Valid(). *)
Theorem phase_queries_agree st :
  reachable (Ctx := Ctx) st ->
  (pending st = true <-> phase_Pending st) /\
  (Valid st = true -> phase_Valid st) /\
  (phase_Invalid st -> validOrPending st = false) /\
  validOrPending st = pending st || Valid st.
Proof.
  intros Hreach. apply reachable_exclusive in Hreach.
  unfold validOrPending, pending, Valid, phase_Pending, phase_Valid, phase_Invalid.
  destruct (Transaction st) as [t|], (txnFuture st) as [f|];
    destruct Hreach as [?|?]; try discriminate; cbn;
    intuition congruence.
Qed.

(** ** Staging a mutation *)

(** X18.  StmtGetMutation is a lookup-or-insert on st.mutations.  It
    always returns, without any call on a collaborator; afterwards the map
    binds the table to the mutation it returned, and every other table is
    bound as before.  A table that had a mutation keeps it and the session
    is unchanged; a table that had none gets an empty mutation carrying its
    id.  Asking again returns the same mutation and changes nothing. *)
Theorem StmtGetMutation_finds_or_inserts (tableID : Z) s h :
  exists (m : TableMutation) s',
    StmtGetMutation tableID s h = (Return m, s', h) /\
    mutations (txn s') !! tableID = Some m /\
    (forall tableID' : Z,
        tableID' <> tableID ->
        mutations (txn s') !! tableID' = mutations (txn s) !! tableID') /\
    match mutations (txn s) !! tableID with
    | Some m0 => m = m0 /\ s' = s
    | None => m = TableMutation_of tableID
    end /\
    Transaction (txn s') = Transaction (txn s) /\
    buf (txn s') = buf (txn s) /\
    dirtyTableOP (txn s') = dirtyTableOP (txn s) /\
    bin_Mutations s' = bin_Mutations s /\
    StmtGetMutation tableID s' h = (Return m, s', h).
Proof.
  unfold StmtGetMutation. run.
  destruct (mutations (txn s) !! tableID) as [m0|] eqn:Hm.
  - exists m0, s. rewrite Hm. by repeat split.
  - unfold on_txn. run.
    eexists (TableMutation_of tableID), _. split; [reflexivity|].
    cbn [txn set_txn mutations set_mutations]. rewrite lookup_insert_eq.
    split; [done|]. split; [intros t' Hne; by rewrite lookup_insert_ne|].
    by repeat split.
Qed.

End Further.

(** ** The further properties at work on the scripted transaction *)

Lemma StmtCommit_merges_binlog_witness :
  outcome_of (StmtCommit staged_session no_history) = Return None /\
  lookup_table (bin_Mutations (state_of (StmtCommit staged_session no_history))) 4
  = Some (mkTableMutation 4 ["r0"; "r1"]%string [] [] [] [] []).
Proof.
  split; [reflexivity|].
  exact (StmtCommit_merges_binlog staged_session no_history eq_refl 4%Z).
Defined.

Lemma StmtCommit_flushes_in_order_witness :
  Transaction (txn staged_session) = Some sound_txn /\
  drain_failure (MemBuffer.entries (buf (txn staged_session))) sound_txn = None /\
  history_of (StmtCommit staged_session no_history)
  = [CallSet "a" "1"; CallDelete "b"; DirtyAddRow 4 1 [7%Z]; DirtyTruncateTable 5] /\
  Transaction (txn (state_of (StmtCommit staged_session no_history)))
  = Some (mock_txn [("a", "1"); ("b", EmptyString)]%string None None).
Proof.
  split; [reflexivity|]. split; [reflexivity|].
  pose proof (StmtCommit_flushes_in_order staged_session no_history sound_txn
                eq_refl eq_refl) as [Hrun Htxn].
  split; [by rewrite Hrun | exact Htxn].
Defined.

Lemma StmtCommit_failure_applies_no_side_effect_witness :
  outcome_of (StmtCommit (mock_session broken_txn overlay_ab) no_history) <> Return None /\
  bin_Mutations (state_of (StmtCommit (mock_session broken_txn overlay_ab) no_history))
  = [] /\
  history_of (StmtCommit (mock_session broken_txn overlay_ab) no_history)
  = [CallSet "a" "1"].
Proof.
  assert (outcome_of (StmtCommit (mock_session broken_txn overlay_ab) no_history)
          <> Return None) as Hfail by (vm_compute; discriminate).
  split; [exact Hfail|].
  destruct (StmtCommit_failure_applies_no_side_effect
              (mock_session broken_txn overlay_ab) no_history Hfail)
    as (Hbin & es' & _ & Hhist & Hes').
  split; [exact Hbin|].
  destruct (Hes' broken_txn eq_refl) as [-> _]. exact Hhist.
Defined.

Lemma StmtCommit_keeps_tables_distinct_witness :
  NoDup (TableId <$> bin_Mutations staged_session) /\
  NoDup (TableId <$> bin_Mutations (state_of (StmtCommit staged_session no_history))).
Proof.
  assert (NoDup (TableId <$> bin_Mutations staged_session)) as Hnodup
    by apply NoDup_singleton.
  split; [exact Hnodup|].
  exact (StmtCommit_keeps_tables_distinct staged_session no_history Hnodup).
Defined.

Lemma Get_overlay_miss_witness :
  MemBuffer.lookup (buf (mock_state sound_txn [])) "a" = None /\
  Get "a" (mock_state sound_txn []) no_history
  = (Return ("0"%string, None), mock_state sound_txn [], [CallGet "a"]) /\
  Get "a" (@initial Z MockTxn) no_history = (Panic, initial, no_history).
Proof.
  split; [reflexivity|].
  pose proof (Get_overlay_miss (mock_state sound_txn []) "a" no_history eq_refl)
    as (_ & _ & Hval & _).
  pose proof (Get_overlay_miss (@initial Z MockTxn) "a" no_history eq_refl)
    as (Hpanic & _).
  split.
  - apply (Hval sound_txn "0"%string); [reflexivity | reflexivity | discriminate].
  - apply Hpanic. reflexivity.
Defined.

Lemma fault_is_sticky_witness :
  rtc (statement_step (Ctx := unit)) (txn poisoned_session) poisoned_later /\
  is_Some (doNotCommit (txn poisoned_session)) /\
  is_Some (doNotCommit poisoned_later) /\
  outcome_of (Commit tt poisoned_later no_history) <> Return None /\
  exists evs,
    history_of (Commit tt poisoned_later no_history) = no_history ++ evs /\
    ~ calls_Commit evs.
Proof.
  assert (rtc (statement_step (Ctx := unit)) (txn poisoned_session) poisoned_later)
    as Hsteps.
  { eapply rtc_l; [apply (ss_Set "c" "3" (txn poisoned_session) no_history)|].
    apply rtc_once.
    apply (ss_StmtRollback
             {| txn := state_of (Set_ "c" "3" (txn poisoned_session) no_history);
                bin_Mutations := [] |} no_history). }
  assert (is_Some (doNotCommit (txn poisoned_session))) as Hfault
    by (eexists; reflexivity).
  split; [exact Hsteps|]. split; [exact Hfault|].
  exact (fault_is_sticky tt (txn poisoned_session) poisoned_later no_history
           Hsteps Hfault).
Defined.

Lemma no_transaction_panics_witness :
  Transaction (txn orphan_session) = None /\
  (exists st', Rollback (txn orphan_session) no_history = (Panic, st', no_history) /\
               is_reset st') /\
  exists s',
    StmtCommit orphan_session no_history = (Panic, s', no_history) /\
    drained (txn s') /\ bin_Mutations s' = bin_Mutations orphan_session.
Proof.
  split; [reflexivity|].
  pose proof (no_transaction_panics tt orphan_session no_history eq_refl)
    as (Hrollback & _ & Hstmt).
  split; [exact Hrollback|].
  apply Hstmt. discriminate.
Defined.

Lemma failing_future_leaves_invalid_witness :
  mockFail oracle_mocked = true /\
  pending (state_of (changeInvalidToPending (Ctx := unit) (Some oracle_mocked)
                       (@initial Z MockTxn) no_history)) = true /\
  exists st',
    changePendingToValid 8
      (state_of (changeInvalidToPending (Some oracle_mocked) initial no_history))
      no_history
    = (Return (Some (errors_New "mock get timestamp fail")), st', no_history) /\
    phase_Invalid st' /\ Valid st' = false /\ validOrPending st' = false /\
    buf st' = buf (@initial Z MockTxn) /\ mutations st' = mutations (@initial Z MockTxn) /\
    dirtyTableOP st' = dirtyTableOP (@initial Z MockTxn) /\
    doNotCommit st' = doNotCommit (@initial Z MockTxn).
Proof.
  split; [reflexivity|].
  exact (failing_future_leaves_invalid oracle_mocked 8 initial no_history eq_refl).
Defined.

Lemma phase_queries_agree_witness :
  reachable (Ctx := unit) resolved_state /\
  Valid resolved_state = true /\
  phase_Valid resolved_state /\
  validOrPending resolved_state = pending resolved_state || Valid resolved_state.
Proof.
  assert (reachable (Ctx := unit) resolved_state) as Hreach.
  { unfold resolved_state.
    eapply reach_step; [|apply tr_changePendingToValid].
    eapply reach_step; [|apply tr_changeInvalidToPending].
    apply reach_initial. }
  split; [exact Hreach|]. split; [reflexivity|].
  pose proof (phase_queries_agree resolved_state Hreach) as (_ & Hvalid & _ & Hor).
  split; [apply Hvalid; reflexivity | exact Hor].
Defined.

Lemma statement_steps_keep_phase_witness :
  rtc (statement_step (Ctx := unit)) (txn poisoned_session) poisoned_later /\
  phase_Valid (txn poisoned_session) /\
  phase_Valid poisoned_later.
Proof.
  assert (rtc (statement_step (Ctx := unit)) (txn poisoned_session) poisoned_later)
    as Hsteps.
  { eapply rtc_l; [apply (ss_Set "c" "3" (txn poisoned_session) no_history)|].
    apply rtc_once.
    apply (ss_StmtRollback
             {| txn := state_of (Set_ "c" "3" (txn poisoned_session) no_history);
                bin_Mutations := [] |} no_history). }
  assert (phase_Valid (txn poisoned_session)) as Hvalid
    by (split; [discriminate | reflexivity]).
  split; [exact Hsteps|]. split; [exact Hvalid|].
  by apply (statement_steps_keep_phase (txn poisoned_session) poisoned_later Hsteps).
Defined.
